(** * dlm: shape inference of the regression network, the training hooks,
      the metadata parser and the evaluation driver

    A shallow embedding of [utils.py], [network_helper.py] and [evaluate.py].

    Conventions.
    - Python integers are [Z]; [%] and [//] are [Z.modulo] and [Z.div]
      (both floor towards minus infinity, the sign of the remainder is the
      sign of the divisor, as in Python), with the division by zero raised
      as [ZeroDivisionError] before either is used.
    - A Python exception is a value of [exn]; a computation that can raise
      is a [result].
    - Tensors are modelled by their shapes, arrays of floating point numbers
      by arrays of rationals (exact arithmetic, no rounding).  The theorems
      on [np.mean] say which numbers the mean is taken of, and give its value
      only where rounding plays no part: the zero of equal inputs, the [nan]
      of an empty list.
    - Text is a [string]; [str.isdigit], [int] and [str.split] are modelled
      on the ASCII range, and a line ends with a line feed. *)

From Stdlib Require Import String Ascii ZArith QArith Qabs Bool Lia List.
From Stdlib Require Import DecimalString DecimalN DecimalPos.
Import ListNotations.

Local Open Scope Z_scope.

(** ** Exceptions and results *)

Inductive exn : Type :=
| AssertionError
| ZeroDivisionError
| IndexError
| ValueError
| AttributeError
| UnboundLocalError
| AxisError
| OutOfRangeError
| TypeError
| IOError.

Inductive result (A : Type) : Type :=
| Ok (a : A)
| Raise (e : exn).

Arguments Ok {A} a.
Arguments Raise {A} e.

Definition bind {A B : Type} (r : result A) (k : A -> result B) : result B :=
  match r with
  | Ok a => k a
  | Raise e => Raise e
  end.

Declare Scope result_scope.
Delimit Scope result_scope with result.
Notation "x <- r ;; k" := (bind r (fun x => k))
  (at level 61, r at next level, right associativity) : result_scope.
Notation "' p <- r ;; k" := (bind r (fun x => let p := x in k))
  (at level 61, p pattern, r at next level, right associativity) : result_scope.

(** Python's [l[-1]]. *)
Definition last_item {A : Type} (l : list A) : result A :=
  match rev l with
  | [] => Raise IndexError
  | x :: _ => Ok x
  end.

(** * utils.py *)

Module Utils.

Local Open Scope result_scope.

(** A static tensor shape. *)
Definition shape := list Z.

(** The operations [my_model_fn] adds to the graph, in order. *)
Inductive layer : Type :=
| Dense (cnt : nat) (units : Z)
| ExpandDims (axis : nat)
| Conv1dTranspose (cnt : nat) (filter_shape output_shape : shape) (stride : Z)
| Conv1dFinal
| Squeeze (axis : nat).

(** [tf.layers.dense]: the last dimension of a tensor of rank two or more
    becomes [units]. *)
Definition dense (s : shape) (units : Z) : result shape :=
  match s with
  | [] | [_] => Raise ValueError
  | _ => Ok (removelast s ++ [units])
  end.

(** [tf.expand_dims(x, axis)] for a non-negative [axis]. *)
Definition expand_dims (s : shape) (axis : nat) : result shape :=
  if (axis <=? length s)%nat
  then Ok (firstn axis s ++ 1 :: skipn axis s)
  else Raise ValueError.

(** [tf.squeeze(x, axis)]: the dimension [axis] must be 1. *)
Definition squeeze (s : shape) (axis : nat) : result shape :=
  match nth_error s axis with
  | Some 1 => Ok (firstn axis s ++ skipn (S axis) s)
  | _ => Raise ValueError
  end.

(** [tf.layers.conv1d(x, filters, kernel_size)] with stride 1 and the default
    VALID padding, on a [batch, width, channels] tensor. *)
Definition conv1d (s : shape) (filters kernel_size : Z) : result shape :=
  match s with
  | [b; w; _] => Ok [b; w - kernel_size + 1; filters]
  | _ => Raise ValueError
  end.

(** [conv1d_transpose] of utils.py with the default [padding="SAME"] and
    [data_format="NWC"] (so [axis = 2]): the checks of the function, in its
    order, then the result of [conv2d_backprop_input], whose shape is the
    [input_sizes] it is given, with the unit axis squeezed out again. *)
Definition conv1d_transpose (value filter output_shape : shape) (stride : Z)
  : result shape :=
  if negb (length output_shape =? 3)%nat then Raise ValueError else
  match nth_error value 2, nth_error filter 2 with
  | Some c, Some fin =>
      if negb (c =? fin) then Raise ValueError else
      match nth_error filter 1, nth_error output_shape 2 with
      | Some fout, Some oc =>
          if negb (fout =? oc) then Raise ValueError else
          let output_shape_ := firstn 1 output_shape ++ 1 :: skipn 1 output_shape in
          squeeze output_shape_ 1
      | _, _ => Raise IndexError
      end
  | _, _ => Raise IndexError
  end.

Record loop_state : Type := mkLoop {
  up : shape;
  feature_dim : Z;
  last_filter : Z;
  layers : list layer
}.

(** One iteration of [for cnt, (up_size, up_filter) in enumerate(zip(...))]. *)
Definition tconv_stage (batch_size : Z) (cnt : nat) (st : loop_state)
    (up_size up_filter : Z) : result loop_state :=
  if feature_dim st =? 0 then Raise ZeroDivisionError else
  if negb (up_size mod feature_dim st =? 0) then Raise AssertionError else
  let stride := up_size / feature_dim st in
  let f := [3; up_filter; last_filter st] in
  let output_shape := [batch_size; up_size; up_filter] in
  up' <- conv1d_transpose (up st) f output_shape stride ;;
  Ok (mkLoop up' up_size up_filter
        (layers st ++ [Conv1dTranspose cnt f output_shape stride])).

Fixpoint tconv_loop (batch_size : Z) (cnt : nat) (st : loop_state)
    (stages : list (Z * Z)) : result loop_state :=
  match stages with
  | [] => Ok st
  | (up_size, up_filter) :: rest =>
      st' <- tconv_stage batch_size cnt st up_size up_filter ;;
      tconv_loop batch_size (S cnt) st' rest
  end.

(** [for cnt, filters in enumerate(fc_filters)]. *)
Fixpoint fc_loop (cnt : nat) (fc : shape) (ls : list layer)
    (fc_filters : list Z) : result (shape * list layer) :=
  match fc_filters with
  | [] => Ok (fc, ls)
  | filters :: rest =>
      fc' <- dense fc filters ;;
      fc_loop (S cnt) fc' (ls ++ [Dense cnt filters]) rest
  end.

Record network : Type := mkNetwork {
  output : shape;
  graph : list layer
}.

Definition my_model_fn (features : shape) (batch_size : Z)
    (fc_filters tconv_dims tconv_filters : list Z) : result network :=
  '(fc, ls) <- fc_loop 0 features [] fc_filters ;;
  up0 <- expand_dims fc 2 ;;
  feature_dim0 <- last_item fc_filters ;;
  st <- tconv_loop batch_size 0
          (mkLoop up0 feature_dim0 1 (ls ++ [ExpandDims 2]))
          (combine tconv_dims tconv_filters) ;;
  up1 <- conv1d (up st) 1 1 ;;
  out <- squeeze up1 2 ;;
  Ok (mkNetwork out (layers st ++ [Conv1dFinal; Squeeze 2])).

(** The strides of the transposed convolutions of a graph, in order. *)
Fixpoint strides (g : list layer) : list Z :=
  match g with
  | [] => []
  | Conv1dTranspose _ _ _ stride :: g' => stride :: strides g'
  | _ :: g' => strides g'
  end.

(** The feature dimension a stage receives: [fc_filters[-1]] for the first
    stage, the width of the previous stage after it. *)
Definition feature_dim_at (fc_filters tconv_dims : list Z) (i : nat) : Z :=
  match i with
  | O => last fc_filters 0
  | S j => nth j tconv_dims 0
  end.

(** Every stage width is a multiple of the (non-zero) width it receives. *)
Definition evenly_divisible (fc_filters tconv_dims : list Z) : Prop :=
  forall i, (i < length tconv_dims)%nat ->
    feature_dim_at fc_filters tconv_dims i <> 0 /\
    (feature_dim_at fc_filters tconv_dims i | nth i tconv_dims 0).

(** The strides the loop computes from the width [fd] it starts with. *)
Fixpoint stride_list (fd : Z) (dims : list Z) : list Z :=
  match dims with
  | [] => []
  | d :: rest => d / fd :: stride_list d rest
  end.

(** The loop passes every assertion. *)
Fixpoint chain (fd : Z) (dims : list Z) : Prop :=
  match dims with
  | [] => True
  | d :: rest => fd <> 0 /\ d mod fd = 0 /\ chain d rest
  end.

End Utils.

(** * network_helper.py *)

Module NetworkHelper.

(** A two-dimensional array, as its rows. *)
Definition array := list (list Q).

(** A scalar as numpy reports it: a number, or [nan]. *)
Inductive npfloat : Type :=
| Num (q : Q)
| NaN.

(** What one [sess.run([loss, truth, pred])] returns. *)
Record batch : Type := mkBatch {
  b_loss : Q;
  b_truth : array;
  b_pred : array
}.

(** What the data iterator answers to the next read: a batch, or an error
    other than the end of the data (the end is the end of the list). *)
Inductive fetch : Type :=
| Batch (b : batch)
| Fails (e : exn).

(** What a hook does that can be seen from outside: the [sess.run] calls that
    read the loss, rewind the validation stream or read a batch, the two
    printed lines (without the duration, which is the time of the wall
    clock), and the summaries handed to the writer. *)
Inductive event : Type :=
| SessRunLoss
| SessRunInit
| SessRunBatch
| PrintStep (step : Z) (loss : Q)
| PrintEval (step : Z) (loss_mean : npfloat)
| ScalarSummary (name : string) (val : npfloat) (step : Z)
| CurveSummary (name : string) (curves : list (list Q * list Q * Q)) (step : Z).

(** The session and everything else a hook touches: the data iterator, the
    answers of [np.random.permutation], and what was run, printed and written
    so far. *)
Record world : Type := mkWorld {
  iterator : list fetch;
  rng : nat -> list nat;
  trace : list event
}.

(** The summary writer; [run] receives [None] by default. *)
Inductive writer : Type := FileWriter.

(** State and exceptions: a raised exception keeps the effects made so far. *)
Definition M (A : Type) : Type := world -> world * result A.

Definition ret {A : Type} (a : A) : M A := fun w => (w, Ok a).

Definition raise {A : Type} (e : exn) : M A := fun w => (w, Raise e).

Definition mbind {A B : Type} (m : M A) (k : A -> M B) : M B :=
  fun w =>
    match m w with
    | (w', Ok a) => k a w'
    | (w', Raise e) => (w', Raise e)
    end.

Declare Scope hook_scope.
Delimit Scope hook_scope with hook.
Notation "x <~ m ;; k" := (mbind m (fun x => k))
  (at level 61, m at next level, right associativity) : hook_scope.
Notation "m ;;; k" := (mbind m (fun _ => k))
  (at level 61, right associativity) : hook_scope.
Local Open Scope hook_scope.

Definition emit (e : event) : M unit :=
  fun w => (mkWorld (iterator w) (rng w) (trace w ++ [e]), Ok tt).

(** A [sess.run] that reads the next batch of the iterator. *)
Definition next_batch : M batch :=
  fun w =>
    match iterator w with
    | [] => (w, Raise OutOfRangeError)
    | Batch b :: rest => (mkWorld rest (rng w) (trace w), Ok b)
    | Fails e :: rest => (mkWorld rest (rng w) (trace w), Raise e)
    end.

(** [sess.run(init_op)]: the iterator restarts on the data set of the op. *)
Definition run_init (dataset : list fetch) : M unit :=
  fun w => (mkWorld dataset (rng w) (trace w ++ [SessRunInit]), Ok tt).

Definition permutation (n : nat) : M (list nat) :=
  fun w => (w, Ok (rng w n)).

(** ** Summaries *)

(** [HookValueSummary.log]. *)
Definition HookValueSummary_log (summary_name : string) (val : npfloat)
    (step : Z) (wr : option writer) : M unit :=
  match wr with
  | None => raise AttributeError
  | Some _ => emit (ScalarSummary summary_name val step)
  end.

Definition Qsum (l : list Q) : Q := fold_left Qplus l 0%Q.

(** [a - b] on one-dimensional arrays, with numpy's broadcasting. *)
Definition row_sub (a b : list Q) : result (list Q) :=
  if (length a =? length b)%nat then Ok (map (fun '(x, y) => (x - y)%Q) (combine a b))
  else match a, b with
       | [x], _ => Ok (map (fun y => (x - y)%Q) b)
       | _, [y] => Ok (map (fun x => (x - y)%Q) a)
       | _, _ => Raise ValueError
       end.

Definition lift {A : Type} (r : result A) : M A := fun w => (w, r).

Definition index {A : Type} (l : list A) (i : nat) : result A :=
  match nth_error l i with
  | Some x => Ok x
  | None => Raise IndexError
  end.

(** The body of [for i in range(curve_num)], from [i] on, [n] times: the
    subplot of a 2 x 3 grid, the two rows picked by [fig_idx[i]], and the
    sum of squares of the title. *)
Fixpoint plot_curves (truth : array) (pred : option array) (fig_idx : list nat)
    (i n : nat) : result (list (list Q * list Q * Q)) :=
  match n with
  | O => Ok []
  | S n' =>
      if (6 <=? i)%nat then Raise ValueError else
      bind (index fig_idx i) (fun k =>
      bind (index truth k) (fun t =>
      bind (match pred with
            | None => Raise TypeError
            | Some p => index p k
            end) (fun p =>
      bind (row_sub t p) (fun d =>
      let mse := Qsum (map (fun x => (x * x)%Q) d) in
      bind (plot_curves truth pred fig_idx (S i) n') (fun rest =>
      Ok ((t, p, mse) :: rest))))))
  end.

(** [HookCurvePlotSummary.log]; [truth] and [pred] may be [None]. *)
Definition HookCurvePlotSummary_log (summary_name : string)
    (truth pred : option array) (step : Z) (wr : option writer)
    (curve_num : Z) : M unit :=
  match truth with
  | None => raise AttributeError
  | Some t =>
      fig_idx <~ permutation (length t) ;;
      curves <~ lift (plot_curves t pred fig_idx 0 (Z.to_nat curve_num)) ;;
      match wr with
      | None => raise AttributeError
      | Some _ => emit (CurveSummary summary_name curves step)
      end
  end.

(** ** Hooks *)

(** [TrainValueHook]; the loss tensor is read through the session. *)
Record TrainValueHook : Type := mkTrainValueHook {
  t_step : Z;
  verb_step : Z;
  t_write_summary : bool;
  value_name : string;
  verb : bool
}.

Definition TrainValueHook_init (verb_step : Z) (ckpt_dir : option string)
    (value_name : string) (write_summary verb : bool) : result TrainValueHook :=
  if write_summary && match ckpt_dir with None => true | Some _ => false end
  then Raise AssertionError
  else Ok (mkTrainValueHook (-1) verb_step write_summary value_name verb).

(** Lines 54-58: what the hook does when it fires. *)
Definition TrainValueHook_action (h : TrainValueHook) (wr : option writer) : M unit :=
  emit SessRunLoss ;;;
  b <~ next_batch ;;
  (if verb h then emit (PrintStep (t_step h) (b_loss b)) else ret tt) ;;;
  if t_write_summary h
  then HookValueSummary_log (value_name h) (Num (b_loss b)) (t_step h) wr
  else ret tt.

Definition TrainValueHook_run (h : TrainValueHook) (wr : option writer)
    (w : world) : TrainValueHook * (world * result unit) :=
  let h1 := mkTrainValueHook (t_step h + 1) (verb_step h) (t_write_summary h)
              (value_name h) (verb h) in
  (h1,
   if verb_step h1 =? 0 then raise ZeroDivisionError w
   else if t_step h1 mod verb_step h1 =? 0 then TrainValueHook_action h1 wr w
   else ret tt w).

(** [ValidationHook]; [valid_init_op] is given by the data set it installs. *)
Record ValidationHook : Type := mkValidationHook {
  v_step : Z;
  valid_step : Z;
  valid_init_op : list fetch;
  v_write_summary : bool;
  curve_num : Z
}.

Definition ValidationHook_init (valid_step : Z) (valid_init_op : list fetch)
    (ckpt_dir : option string) (write_summary : bool) (curve_num : Z)
    : result ValidationHook :=
  if write_summary && match ckpt_dir with None => true | Some _ => false end
  then Raise AssertionError
  else Ok (mkValidationHook (-1) valid_step valid_init_op write_summary curve_num).

(** The local variables of the [try] block. *)
Record drained : Type := mkDrained {
  loss_val : list Q;
  truth : option array;
  pred : option array
}.

(** [while True: loss, truth, pred = sess.run(...); loss_val.append(loss)]
    inside [try ... except tf.errors.OutOfRangeError: pass], on the iterator
    [it]: the recursion is on what is left to read. *)
Fixpoint drain (it : list fetch) (acc : drained) (w : world) : world * result drained :=
  let tr := trace w ++ [SessRunBatch] in
  match it with
  | [] => (mkWorld [] (rng w) tr, Ok acc)
  | Fails OutOfRangeError :: rest => (mkWorld rest (rng w) tr, Ok acc)
  | Fails e :: rest => (mkWorld rest (rng w) tr, Raise e)
  | Batch b :: rest =>
      drain rest
        (mkDrained (loss_val acc ++ [b_loss b]) (Some (b_truth b)) (Some (b_pred b)))
        (mkWorld rest (rng w) tr)
  end.

(** [np.mean] of a list of numbers. *)
Definition np_mean (l : list Q) : npfloat :=
  match l with
  | [] => NaN
  | _ => Num (Qsum l / inject_Z (Z.of_nat (length l)))
  end.

(** Lines 114-116. *)
Definition ValidationHook_summaries (h : ValidationHook) (loss_mean : npfloat)
    (truth pred : option array) (wr : option writer) : M unit :=
  if v_write_summary h
  then HookValueSummary_log "valid_mse" loss_mean (v_step h) wr ;;;
       HookCurvePlotSummary_log "pred_plot" truth pred (v_step h) wr (curve_num h)
  else ret tt.

(** Lines 101-116: what the hook does when it fires. *)
Definition ValidationHook_action (h : ValidationHook) (wr : option writer) : M unit :=
  run_init (valid_init_op h) ;;;
  d <~ (fun w => drain (iterator w) (mkDrained [] None None) w) ;;
  let loss_mean := np_mean (loss_val d) in
  emit (PrintEval (v_step h) loss_mean) ;;;
  ValidationHook_summaries h loss_mean (truth d) (pred d) wr.

Definition ValidationHook_run (h : ValidationHook) (wr : option writer)
    (w : world) : ValidationHook * (world * result unit) :=
  let h1 := mkValidationHook (v_step h + 1) (valid_step h) (valid_init_op h)
              (v_write_summary h) (curve_num h) in
  (h1,
   if valid_step h1 =? 0 then raise ZeroDivisionError w
   else if (v_step h1 mod valid_step h1 =? 0) && negb (v_step h1 =? 0)
        then ValidationHook_action h1 wr w
        else ret tt w).

(** ** Invocations and traces *)



(** Running a computation only adds to the trace. *)
Definition extends (w w' : world) : Prop :=
  exists tl, trace w' = trace w ++ tl.

Definition monotone {A : Type} (m : M A) : Prop :=
  forall w, extends w (fst (m w)).

(** A loop that calls [run] [n] times, whatever each call returns. *)
Fixpoint invoke_train (n : nat) (h : TrainValueHook) (wr : option writer)
    (w : world) : TrainValueHook * world :=
  match n with
  | O => (h, w)
  | S n' =>
      let out := TrainValueHook_run h wr w in
      invoke_train n' (fst out) wr (fst (snd out))
  end.

Fixpoint invoke_valid (n : nat) (h : ValidationHook) (wr : option writer)
    (w : world) : ValidationHook * world :=
  match n with
  | O => (h, w)
  | S n' =>
      let out := ValidationHook_run h wr w in
      invoke_valid n' (fst out) wr (fst (snd out))
  end.

(** The last batch of a validation pass, if there is one. *)
Definition final_batch (bs : list batch) : option batch :=
  last (map Some bs) None.

(** A computation that leaves the data iterator where it is. *)
Definition keeps_iterator {A : Type} (m : M A) : Prop :=
  forall w, iterator (fst (m w)) = iterator w.

(** A computation that never raises the end of the data. *)
Definition never_out_of_range {A : Type} (m : M A) : Prop :=
  forall w, snd (m w) <> Raise OutOfRangeError.

(** ** The metadata parser *)

Local Open Scope string_scope.

(** [s.replace(c, ' ')] for a one-character [c]. *)
Fixpoint replace_space (c : ascii) (s : string) : string :=
  match s with
  | EmptyString => EmptyString
  | String a s' =>
      String (if Ascii.eqb a c then " "%char else a) (replace_space c s')
  end.

Definition replace_str (s : string) : string :=
  fold_left (fun s char => replace_space char s) [","%char; "("%char; ")"%char] s.

(** The ASCII characters [str.split()] splits at: tab, line feed, vertical
    tab, form feed, carriage return, the four separators 28-31 and space. *)
Definition isspace (a : ascii) : bool :=
  let n := nat_of_ascii a in
  ((9 <=? n) && (n <=? 13) || (28 <=? n) && (n <=? 31) || (n =? 32))%nat.

(** [s.split()]: the maximal runs of characters that are not spaces; [cur]
    is the run being read. *)
Fixpoint split_from (cur s : string) : list string :=
  match s with
  | EmptyString => if String.eqb cur EmptyString then [] else [cur]
  | String a s' =>
      if isspace a
      then if String.eqb cur EmptyString
           then split_from EmptyString s'
           else cur :: split_from EmptyString s'
      else split_from (cur ++ String a EmptyString) s'
  end.

Definition split (s : string) : list string := split_from EmptyString s.

Definition is_digit (a : ascii) : bool :=
  let n := nat_of_ascii a in ((48 <=? n) && (n <=? 57))%nat.

Fixpoint all_digits (s : string) : bool :=
  match s with
  | EmptyString => true
  | String a s' => is_digit a && all_digits s'
  end.

(** [s.isdigit()] on ASCII text. *)
Definition isdigit (s : string) : bool :=
  negb (String.eqb s EmptyString) && all_digits s.

Fixpoint int_from (acc : Z) (s : string) : Z :=
  match s with
  | EmptyString => acc
  | String a s' => int_from (10 * acc + (Z.of_nat (nat_of_ascii a) - 48)) s'
  end.

(** [int(s)] for a string of digits. *)
Definition int (s : string) : Z := int_from 0 s.

(** [tuple([int(s) for s in line.split() if s.isdigit()])] after
    [replace_str]. *)
Definition parse_ints (line : string) : list Z :=
  map int (filter isdigit (split (replace_str line))).

(** [f.readlines()]: the lines of the text, each with its line feed. *)
Fixpoint readlines_from (cur s : string) : list string :=
  match s with
  | EmptyString => if String.eqb cur EmptyString then [] else [cur]
  | String a s' =>
      if Ascii.eqb a "010"%char
      then (cur ++ String a EmptyString) :: readlines_from EmptyString s'
      else readlines_from (cur ++ String a EmptyString) s'
  end.

Definition readlines (s : string) : list string := readlines_from EmptyString s.

(** The three local variables of [get_parameters], unbound at first. *)
Record parameters : Type := mkParameters {
  fc_filters : option (list Z);
  tconv_dims : option (list Z);
  tconv_filters : option (list Z)
}.

(** The body of [for line in lines]. *)
Definition parse_line (p : parameters) (line : string) : parameters :=
  if String.eqb (substring 0 10 line) "fc_filters"
  then mkParameters (Some (parse_ints line)) (tconv_dims p) (tconv_filters p)
  else if String.eqb (substring 0 10 line) "tconv_dims"
  then mkParameters (fc_filters p) (Some (parse_ints line)) (tconv_filters p)
  else if String.eqb (substring 0 13 line) "tconv_filters"
  then mkParameters (fc_filters p) (tconv_dims p) (Some (parse_ints line))
  else p.

(** [os.path.join(a, b)]: [b] alone when it is absolute, otherwise [a] and
    [b] with one slash between them. *)
Definition path_join (a b : string) : string :=
  match b with
  | String c _ =>
      if Ascii.eqb c "/"%char then b
      else match rev (list_ascii_of_string a) with
           | [] => b
           | d :: _ => if Ascii.eqb d "/"%char then a ++ b else a ++ "/" ++ b
           end
  | EmptyString =>
      match rev (list_ascii_of_string a) with
      | [] => b
      | d :: _ => if Ascii.eqb d "/"%char then a else a ++ "/"
      end
  end.

(** [os.path.join(model_dir, 'model_meta.txt')]. *)
Definition meta_path (model_dir : string) : string :=
  path_join model_dir "model_meta.txt".

(** The text files of the file system, by path. *)
Definition text_files := string -> option string.

Definition get_parameters_of_lines (lines : list string)
    : result (list Z * list Z * list Z) :=
  let p := fold_left parse_line lines (mkParameters None None None) in
  match fc_filters p, tconv_dims p, tconv_filters p with
  | Some fc, Some dims, Some filters => Ok (fc, dims, filters)
  | _, _, _ => Raise UnboundLocalError
  end.

Definition get_parameters (fs : text_files) (model_dir : string)
    : result (list Z * list Z * list Z) :=
  match fs (meta_path model_dir) with
  | None => Raise IOError
  | Some text => get_parameters_of_lines (readlines text)
  end.

(** ** The metadata file, as it is written

    The format of the specification, section 6: one attribute on a line, the
    name, a space, and the integers in parentheses separated by commas, the
    way Python prints a tuple. *)

(** [str(n)]. *)
Definition str (n : Z) : string := NilEmpty.string_of_int (Z.to_int n).

Fixpoint join (sep : string) (l : list string) : string :=
  match l with
  | [] => EmptyString
  | [x] => x
  | x :: rest => x ++ sep ++ join sep rest
  end.

(** [str(t)] for a tuple of integers: [()], [(4,)], [(4, 8, 16)]. *)
Definition tuple_repr (l : list Z) : string :=
  match l with
  | [x] => "(" ++ str x ++ ",)"
  | _ => "(" ++ join ", " (map str l) ++ ")"
  end.

Definition newline : string := String "010"%char EmptyString.

Definition meta_line (name : string) (values : list Z) : string :=
  name ++ " " ++ tuple_repr values ++ newline.

Definition write_meta (fc dims filters : list Z) : string :=
  meta_line "fc_filters" fc ++ meta_line "tconv_dims" dims ++
  meta_line "tconv_filters" filters.

(** The characters [replace_str] and [split] treat as separators. *)
Definition sep_char (a : ascii) : bool :=
  Ascii.eqb a ","%char || Ascii.eqb a "("%char || Ascii.eqb a ")"%char.

Definition blank (a : ascii) : bool := isspace a || sep_char a.

Fixpoint all_blank (s : string) : bool :=
  match s with
  | EmptyString => true
  | String a s' => blank a && all_blank s'
  end.

Fixpoint no_blank (s : string) : bool :=
  match s with
  | EmptyString => true
  | String a s' => negb (blank a) && no_blank s'
  end.

(** A separator: one or more separator characters. *)
Definition separator (s : string) : bool :=
  negb (String.eqb s EmptyString) && all_blank s.

(** Integers, each followed by a separator. *)
Fixpoint render (items : list (Z * string)) : string :=
  match items with
  | [] => EmptyString
  | (v, sep) :: rest => str v ++ sep ++ render rest
  end.

Definition well_formed (items : list (Z * string)) : Prop :=
  Forall (fun it => 0 <= fst it /\ separator (snd it) = true) items.

(** A line that [get_parameters] skips. *)
Definition unrelated (line : string) : Prop :=
  forall p, parse_line p line = p.

(** The same line, as integers each followed by a separator. *)
Fixpoint tuple_items (l : list Z) : list (Z * string) :=
  match l with
  | [] => []
  | [x] => [(x, ")" ++ newline)]
  | x :: rest => (x, ", ") :: tuple_items rest
  end.

Definition meta_items (l : list Z) : string * list (Z * string) :=
  match l with
  | [] => (" ()" ++ newline, [])
  | [x] => (" (", [(x, ",)" ++ newline)])
  | _ => (" (", tuple_items l)
  end.

Fixpoint no_newline (s : string) : bool :=
  match s with
  | EmptyString => true
  | String a s' => negb (Ascii.eqb a "010"%char) && no_newline s'
  end.

(** The three attribute lines of a file, each in the general format: the
    name, a separator, and the integers each followed by a separator. *)
Definition attribute_line (name sep0 : string) (items : list (Z * string)) : string :=
  name ++ sep0 ++ render items.

(** The file of the specification. *)
Definition example_meta : string :=
  "fc_filters (4, 8, 16)" ++ newline ++
  "tconv_dims (32, 64)" ++ newline ++
  "tconv_filters (8, 4)" ++ newline.

(** [line] gives the attribute [name] the integers [values]. *)
Definition describes (name : string) (values : list Z) (line : string) : Prop :=
  exists sep0 items,
    line = attribute_line name sep0 items /\
    separator sep0 = true /\
    well_formed items /\
    map fst items = values.

(** Every line of the file is a line of one of the three attributes with
    the integers written for it, or a line the parser skips. *)
Definition written (fc dims filters : list Z) (lines : list string) : Prop :=
  Forall (fun line =>
            describes "fc_filters" fc line \/
            describes "tconv_dims" dims line \/
            describes "tconv_filters" filters line \/
            unrelated line) lines.

(** What is bound so far is what was written. *)
Definition agrees (fc dims filters : list Z) (p : parameters) : Prop :=
  (fc_filters p = None \/ fc_filters p = Some fc) /\
  (tconv_dims p = None \/ tconv_dims p = Some dims) /\
  (tconv_filters p = None \/ tconv_filters p = Some filters).

End NetworkHelper.

(** * evaluate.py *)

Module Evaluate.

Import NetworkHelper.
Local Open Scope result_scope.

(** A numpy array of dimension 0, 1 or 2. *)
Inductive ndarray : Type :=
| Arr0 (x : Q)
| Arr1 (xs : list Q)
| Arr2 (rows : list (list Q)).

(** The numbers of a text file, line by line. *)
Definition table := list (list Q).

(** The numeric files of the file system, by path. *)
Definition numeric_files := string -> option table.

Definition same_width (t : table) : bool :=
  match t with
  | [] => true
  | r :: rest => forallb (fun r' => (length r' =? length r)%nat) rest
  end.

(** [np.loadtxt(file, delimiter=' ')]: blank lines are skipped, the lines
    must have the same number of values, and with the default [ndmin=0] the
    axes of length one are squeezed out. *)
Definition loadtxt (fs : numeric_files) (file : string) : result ndarray :=
  match fs file with
  | None => Raise IOError
  | Some t =>
      let t := filter (fun r => negb (length r =? 0)%nat) t in
      if negb (same_width t) then Raise ValueError else
      match t with
      | [] => Ok (Arr1 [])
      | [[x]] => Ok (Arr0 x)
      | [r] => Ok (Arr1 r)
      | [_] :: _ => Ok (Arr1 (concat t))
      | _ => Ok (Arr2 t)
      end
  end.

Definition ndim (a : ndarray) : nat :=
  match a with
  | Arr0 _ => 0
  | Arr1 _ => 1
  | Arr2 _ => 2
  end.

(** An array as a matrix: a scalar is 1 x 1, a vector is one row. *)
Definition as_matrix (a : ndarray) : list (list Q) :=
  match a with
  | Arr0 x => [[x]]
  | Arr1 xs => [xs]
  | Arr2 rows => rows
  end.

Definition of_matrix (d : nat) (m : list (list Q)) : ndarray :=
  match d with
  | 0%nat => Arr0 (hd 0%Q (hd [] m))
  | 1%nat => Arr1 (hd [] m)
  | _ => Arr2 m
  end.

Definition width (m : list (list Q)) : nat :=
  match m with
  | [] => 0
  | r :: _ => length r
  end.

(** The broadcast of two lengths along one axis. *)
Definition broadcast_dim (n m : nat) : result nat :=
  if (n =? m)%nat then Ok n
  else if (n =? 1)%nat then Ok m
  else if (m =? 1)%nat then Ok n
  else Raise ValueError.

(** An axis of length one is repeated [n] times. *)
Definition stretch {A : Type} (n : nat) (l : list A) : list A :=
  match l with
  | [x] => repeat x n
  | _ => l
  end.

Definition map2 {A B C : Type} (f : A -> B -> C) (l : list A) (l' : list B) : list C :=
  map (fun '(x, y) => f x y) (combine l l').

(** An elementwise binary operation, with broadcasting. *)
Definition elementwise2 (f : Q -> Q -> Q) (a b : ndarray) : result ndarray :=
  let ma := as_matrix a in
  let mb := as_matrix b in
  r <- broadcast_dim (length ma) (length mb) ;;
  c <- broadcast_dim (width ma) (width mb) ;;
  let ma' := stretch r (map (stretch c) ma) in
  let mb' := stretch r (map (stretch c) mb) in
  Ok (of_matrix (Nat.max (ndim a) (ndim b)) (map2 (map2 f) ma' mb')).

Definition elementwise (f : Q -> Q) (a : ndarray) : ndarray :=
  match a with
  | Arr0 x => Arr0 (f x)
  | Arr1 xs => Arr1 (map f xs)
  | Arr2 rows => Arr2 (map (map f) rows)
  end.

(** [np.mean(a, axis=1)]. *)
Definition mean_axis1 (a : ndarray) : result (list npfloat) :=
  match a with
  | Arr2 rows => Ok (map np_mean rows)
  | _ => Raise AxisError
  end.

Definition compare_truth_pred (fs : numeric_files) (pred_file truth_file : string)
    : result (list npfloat * list npfloat) :=
  pred <- loadtxt fs pred_file ;;
  truth <- loadtxt fs truth_file ;;
  d <- elementwise2 Qminus pred truth ;;
  mae <- mean_axis1 (elementwise Qabs d) ;;
  d' <- elementwise2 Qminus pred truth ;;
  mse <- mean_axis1 (elementwise (fun x => (x * x)%Q) d') ;;
  Ok (mae, mse).

(** ** The driver *)

Record flags : Type := mkFlags {
  input_size : Z;
  x_range : list Z;
  y_range : list Z;
  cross_val : Z;
  val_fold : Z;
  batch_size : Z;
  shuffle_size : Z;
  verb_step : Z;
  eval_step : Z;
  train_step : Z;
  learn_rate : Q;
  decay_step : Z;
  decay_rate : Q;
  force_run : bool;
  model_name : string;
  train_file : string;
  valid_file : string
}.

Definition FORCE_RUN : bool := true.

Local Open Scope string_scope.

(** The flags of [read_flag] when the command line gives none. *)
Definition default_flags : flags :=
  mkFlags 2 [0; 1]%Z (map Z.of_nat (seq 2 1001)) 5 0 20 5 25 250 1500
    (1 # 1000) 10000 (96 # 100) FORCE_RUN "20180705_125935"
    "TrainDataV9.txt" "TestDataV9.txt".

(** Which files [main] compares: those of a new evaluation, or those found
    on disk. *)
Inductive branch : Type :=
| Evaluating
| Existing.

(** The test of [if FORCE_RUN or (not os.path.exists(save_file))]. *)
Definition select_branch (f : flags) (exists_ : string -> bool) (save_file : string)
    : branch :=
  if FORCE_RUN || negb (exists_ save_file) then Evaluating else Existing.

Section Main.

(** The directory of the script, and the collaborators that are not part of
    the three files: the data reader of [data_reader] and the network of
    [network_maker] with its [evaluate], which writes the two files it
    names. *)
Variable here : string.
Variable data : Type.
Variable ntwk : Type.
Variable get_data_holder_and_init_op : flags -> Z -> result data.
Variable CnnNetwork : data -> flags -> list Z -> list Z -> list Z -> result ntwk.
Variable ntwk_evaluate :
  ntwk -> data -> numeric_files -> string -> string ->
  result (numeric_files * (string * string)).

Record outcome : Type := mkOutcome {
  printed : list string;
  taken : branch;
  pred_file : string;
  truth_file : string;
  mae : list npfloat;
  mse : list npfloat
}.

(** [main], up to the histogram it draws from [mse]. *)
Definition main (f : flags) (texts : text_files) (nums : numeric_files)
    (exists_ : string -> bool) : result outcome :=
  let ckpt_dir := path_join (path_join here "models") (model_name f) in
  '(fc_filters, tconv_dims, tconv_filters) <- get_parameters texts ckpt_dir ;;
  output_size <- (if (length tconv_dims =? 0)%nat
                  then last_item fc_filters else last_item tconv_dims) ;;
  d <- get_data_holder_and_init_op f output_size ;;
  net <- CnnNetwork d f fc_filters tconv_dims tconv_filters ;;
  let save_file :=
    path_join (path_join here "data") ("test_pred_" ++ model_name f ++ ".csv") in
  match select_branch f exists_ save_file with
  | Evaluating =>
      '(nums', (pred_file, truth_file)) <-
         ntwk_evaluate net d nums ckpt_dir (model_name f) ;;
      '(mae, mse) <- compare_truth_pred nums' pred_file truth_file ;;
      Ok (mkOutcome ["Evaluating the model ..."] Evaluating pred_file truth_file
            mae mse)
  | Existing =>
      let pred_file := save_file in
      let truth_file := path_join (path_join here "data") "test_truth.csv" in
      '(mae, mse) <- compare_truth_pred nums pred_file truth_file ;;
      Ok (mkOutcome [] Existing pred_file truth_file mae mse)
  end.

End Main.

(** Equality of two reported numbers; [nan] equals nothing. *)
Definition feq (a b : npfloat) : Prop :=
  match a, b with
  | Num x, Num y => (x == y)%Q
  | _, _ => False
  end.

(** A file that [np.loadtxt] reads as a two-dimensional array: at least two
    lines, all of the same number of values, at least two. *)
Definition regular (t : table) : bool :=
  (2 <=? length t)%nat && (2 <=? width t)%nat && same_width t.


End Evaluate.

(** * utils.py: the two other models *)

Module UtilsVariants.

Import Utils.
Local Open Scope result_scope.

(** [linear] with [with_w=False]: the product of a [batch, n] input with an
    [n, output_size] matrix, plus the bias. *)
Definition linear (input_ : shape) (output_size : Z) : result shape :=
  match input_ with
  | [] | [_] => Raise IndexError
  | [b; _] => Ok [b; output_size]
  | _ => Raise ValueError
  end.

(** [tf.layers.conv1d(x, filters, 3, padding='same')]. *)
Definition conv1d_same (s : shape) (filters : Z) : result shape :=
  match s with
  | [b; w; _] => Ok [b; w; filters]
  | _ => Raise ValueError
  end.

(** The operations of the two other models: those of [my_model_fn], the
    linear layer with its leaky ReLU, and the convolution that follows a
    transposed convolution. *)
Inductive op : Type :=
| Op (l : layer)
| Linear (cnt : nat) (units : Z)
| LeakyRelu
| Conv1dUp (cnt : nat) (filters : Z).

Fixpoint op_strides (g : list op) : list Z :=
  match g with
  | [] => []
  | Op (Conv1dTranspose _ _ _ stride) :: g' => stride :: op_strides g'
  | _ :: g' => op_strides g'
  end.

Record model : Type := mkModel {
  m_output : shape;
  m_graph : list op
}.

(** [for cnt, filters in enumerate(fc_filters)] with [linear] and
    [tf.nn.leaky_relu]. *)
Fixpoint fc_linear_loop (cnt : nat) (fc : shape) (ls : list op)
    (fc_filters : list Z) : result (shape * list op) :=
  match fc_filters with
  | [] => Ok (fc, ls)
  | filters :: rest =>
      fc' <- linear fc filters ;;
      fc_linear_loop (S cnt) fc' (ls ++ [Linear cnt filters; LeakyRelu])%list rest
  end.

Record state : Type := mkState {
  s_up : shape;
  s_feature_dim : Z;
  s_last_filter : Z;
  s_ops : list op
}.

(** One iteration of the upsampling loop; [refine] is on in
    [my_model_fn_linear_conv1d], where a convolution of width 3 follows. *)
Definition up_stage (refine : bool) (batch_size : Z) (cnt : nat) (st : state)
    (up_size up_filter : Z) : result state :=
  if (s_feature_dim st =? 0)%Z then Raise ZeroDivisionError else
  if negb (up_size mod s_feature_dim st =? 0)%Z then Raise AssertionError else
  let stride := (up_size / s_feature_dim st)%Z in
  let f := [3%Z; up_filter; s_last_filter st] in
  let output_shape := [batch_size; up_size; up_filter] in
  up' <- Utils.conv1d_transpose (s_up st) f output_shape stride ;;
  let ops' := (s_ops st ++ [Op (Conv1dTranspose cnt f output_shape stride)])%list in
  if refine
  then up'' <- conv1d_same up' up_filter ;;
       Ok (mkState up'' up_size up_filter (ops' ++ [Conv1dUp cnt up_filter])%list)
  else Ok (mkState up' up_size up_filter ops').

Fixpoint up_loop (refine : bool) (batch_size : Z) (cnt : nat) (st : state)
    (stages : list (Z * Z)) : result state :=
  match stages with
  | [] => Ok st
  | (up_size, up_filter) :: rest =>
      st' <- up_stage refine batch_size cnt st up_size up_filter ;;
      up_loop refine batch_size (S cnt) st' rest
  end.

Definition model_fn_linear (refine : bool) (features : shape) (batch_size : Z)
    (fc_filters tconv_dims tconv_filters : list Z) : result model :=
  '(fc, ls) <- fc_linear_loop 0 features [] fc_filters ;;
  up0 <- expand_dims fc 2 ;;
  feature_dim0 <- last_item fc_filters ;;
  st <- up_loop refine batch_size 0
          (mkState up0 feature_dim0 1 (ls ++ [Op (ExpandDims 2)])%list)
          (combine tconv_dims tconv_filters) ;;
  up1 <- conv1d (s_up st) 1 1 ;;
  out <- squeeze up1 2 ;;
  Ok (mkModel out (s_ops st ++ [Op Conv1dFinal; Op (Squeeze 2)])%list).

Definition my_model_fn_linear := model_fn_linear false.

Definition my_model_fn_linear_conv1d := model_fn_linear true.

(** What two models have in common: the output shape and the strides. *)
Definition summary_of_network (r : result network) : result (shape * list Z) :=
  n <- r ;; Ok (output n, strides (graph n)).

Definition summary_of_model (r : result model) : result (shape * list Z) :=
  m <- r ;; Ok (m_output m, op_strides (m_graph m)).

(** Two results that are the same exception, or two values that are
    related. *)
Definition related {A B : Type} (R : A -> B -> Prop) (r : result A) (r' : result B)
    : Prop :=
  match r, r' with
  | Ok a, Ok b => R a b
  | Raise e, Raise e' => e = e'
  | _, _ => False
  end.

Definition same_state (st : loop_state) (vst : state) : Prop :=
  up st = s_up vst /\
  feature_dim st = s_feature_dim vst /\
  last_filter st = s_last_filter vst /\
  strides (layers st) = op_strides (s_ops vst).

(** Two states of [my_model_fn] that differ in the filter counts only. *)
Definition same_widths (st st' : loop_state) : Prop :=
  feature_dim st = feature_dim st' /\
  strides (layers st) = strides (layers st') /\
  exists b w, up st = [b; w; last_filter st] /\ up st' = [b; w; last_filter st'].

End UtilsVariants.

(** * network_helper.py: what the hooks leave in the trace *)

Module HookTraces.

Import NetworkHelper.

Definition is_loss_read (e : event) : bool :=
  match e with
  | SessRunLoss => true
  | _ => false
  end.

Definition is_rewind (e : event) : bool :=
  match e with
  | SessRunInit => true
  | _ => false
  end.

(** How many times the trace has the train hook read the loss, and the
    validation hook rewind the stream. *)
Definition loss_reads (tr : list event) : nat := length (filter is_loss_read tr).

Definition rewinds (tr : list event) : nat := length (filter is_rewind tr).

(** A computation that adds to the trace only events that are none of
    [p]. *)
Definition adds_none (p : event -> bool) {A : Type} (m : M A) : Prop :=
  forall w, exists tl,
    trace (fst (m w)) = trace w ++ tl /\ filter p tl = [].

(** [np.random.permutation(n)] answers with a permutation of [0 .. n-1]:
    every index it gives is below [n], and it gives [n] of them. *)
Definition fair (rng : nat -> list nat) : Prop :=
  forall n, length (rng n) = n /\ Forall (fun k => (k < n)%nat) (rng n).

(** The rows of [truth] and [pred] at the index [k], with the sum of the
    squares of their differences. *)
Definition curve (truth pred : array) (k : nat) : list Q * list Q * Q :=
  let t := nth k truth [] in
  let p := nth k pred [] in
  (t, p, Qsum (map (fun '(x, y) => ((x - y) * (x - y))%Q) (combine t p))).

(** Two arrays of the same shape. *)
Definition same_shape (truth pred : array) : Prop :=
  Forall2 (fun t p => length t = length p) truth pred.

End HookTraces.

(** * network_helper.py: the lines [get_parameters] looks at *)

Module ParserLines.

Import NetworkHelper.
Local Open Scope string_scope.

(** [line[:len(name)] == name]. *)
Definition starts_with (name line : string) : bool :=
  String.eqb (substring 0 (String.length name) line) name.

(** The last line that satisfies [p], if there is one. *)
Definition last_with (p : string -> bool) (lines : list string) : option string :=
  fold_left (fun found line => if p line then Some line else found) lines None.

(** Each of the three attributes has a line. *)
Definition all_present (lines : list string) : bool :=
  existsb (starts_with "fc_filters") lines &&
  existsb (starts_with "tconv_dims") lines &&
  existsb (starts_with "tconv_filters") lines.

(** Some character of [s] satisfies [p]. *)
Fixpoint has_char (p : ascii -> bool) (s : string) : bool :=
  match s with
  | EmptyString => false
  | String a s' => p a || has_char p s'
  end.

(** Every item ends with a separator; the integers may be negative. *)
Definition separated (items : list (Z * string)) : Prop :=
  Forall (fun it => separator (snd it) = true) items.

(** Text of the ASCII range.  On such text [str.isdigit], [int] and
    [str.split] are the functions above; beyond it Python knows digits that
    [int] refuses and more characters to split at. *)
Definition is_ascii (a : ascii) : bool := (nat_of_ascii a <? 128)%nat.

Definition ascii_text (s : string) : bool :=
  forallb is_ascii (list_ascii_of_string s).

Definition ascii_lines (lines : list string) : bool := forallb ascii_text lines.

End ParserLines.

(** * Properties *)

Lemma last_item_app {A : Type} (l : list A) (x : A) :
  last_item (l ++ [x]) = Ok x.
Proof. unfold last_item. rewrite rev_app_distr. reflexivity. Qed.

Lemma last_item_last {A : Type} (l : list A) (d : A) :
  l <> [] -> last_item l = Ok (last l d).
Proof.
  intros Hl. destruct (exists_last Hl) as [l' [x ->]].
  rewrite last_item_app, last_last. reflexivity.
Qed.

Lemma last_default {A : Type} (l : list A) (d d' : A) :
  l <> [] -> last l d = last l d'.
Proof.
  intros Hl. destruct (exists_last Hl) as [l' [x ->]].
  rewrite !last_last. reflexivity.
Qed.

(** ** The shapes of [my_model_fn] *)

Module UtilsFacts.

Import Utils.
Local Open Scope result_scope.

Lemma strides_app (g g' : list layer) :
  strides (g ++ g') = strides g ++ strides g'.
Proof.
  induction g as [| l g IH]; simpl; [reflexivity |].
  destruct l; simpl; rewrite IH; reflexivity.
Qed.

Lemma fc_loop_rank2 (fc_filters : list Z) :
  forall cnt b n ls,
    exists ls',
      fc_loop cnt [b; n] ls fc_filters = Ok ([b; last fc_filters n], ls ++ ls') /\
      strides ls' = [].
Proof.
  induction fc_filters as [| u rest IH]; intros cnt b n ls; simpl.
  - exists []. rewrite app_nil_r. split; reflexivity.
  - destruct (IH (S cnt) b u (ls ++ [Dense cnt u])) as [ls' [E S']].
    exists (Dense cnt u :: ls'). split; [| exact S'].
    rewrite E, <- app_assoc. simpl.
    destruct rest as [| z rest]; [reflexivity |].
    rewrite (last_default (z :: rest) u n) by discriminate. reflexivity.
Qed.

Lemma tconv_stage_ok batch_size cnt st up_size up_filter b :
  up st = [b; feature_dim st; last_filter st] ->
  feature_dim st <> 0 ->
  up_size mod feature_dim st = 0 ->
  tconv_stage batch_size cnt st up_size up_filter =
    Ok (mkLoop [batch_size; up_size; up_filter] up_size up_filter
          (layers st ++ [Conv1dTranspose cnt [3; up_filter; last_filter st]
                           [batch_size; up_size; up_filter]
                           (up_size / feature_dim st)])).
Proof.
  intros Hup Hfd Hmod. unfold tconv_stage.
  destruct (Z.eqb_spec (feature_dim st) 0) as [E | _]; [contradiction |].
  rewrite Hmod. simpl negb. cbv iota.
  unfold conv1d_transpose. rewrite Hup. simpl.
  rewrite !Z.eqb_refl. reflexivity.
Qed.

Lemma tconv_loop_ok batch_size (stages : list (Z * Z)) :
  forall cnt st b,
    up st = [b; feature_dim st; last_filter st] ->
    chain (feature_dim st) (map fst stages) ->
    exists st',
      tconv_loop batch_size cnt st stages = Ok st' /\
      strides (layers st') =
        strides (layers st) ++ stride_list (feature_dim st) (map fst stages) /\
      up st' = match stages with
               | [] => up st
               | _ => [batch_size; last (map fst stages) 0; last (map snd stages) 0]
               end.
Proof.
  induction stages as [| [up_size up_filter] rest IH]; intros cnt st b Hup Hch.
  - exists st. simpl. rewrite app_nil_r. auto.
  - simpl in Hch. destruct Hch as [Hfd [Hmod Hch]].
    cbn [tconv_loop].
    rewrite (tconv_stage_ok batch_size cnt st up_size up_filter b Hup Hfd Hmod).
    cbn [bind].
    set (st1 := mkLoop _ _ _ _).
    destruct (IH (S cnt) st1 batch_size eq_refl Hch) as [st' [E [Hs Hu]]].
    exists st'. split; [exact E |]. split.
    + rewrite Hs. subst st1. cbn [layers feature_dim]. rewrite strides_app. simpl.
      rewrite <- app_assoc. reflexivity.
    + rewrite Hu. subst st1. cbn [up].
      destruct rest as [| [d f] rest']; reflexivity.
Qed.

Lemma map_fst_combine (dims filters : list Z) :
  map fst (combine dims filters) = firstn (length filters) dims.
Proof.
  revert filters. induction dims as [| d dims IH]; intros [| f filters]; simpl;
    try reflexivity.
  - rewrite IH. reflexivity.
Qed.

Lemma map_snd_combine (dims filters : list Z) :
  map snd (combine dims filters) = firstn (length dims) filters.
Proof.
  revert filters. induction dims as [| d dims IH]; intros [| f filters]; simpl;
    try reflexivity.
  - rewrite IH. reflexivity.
Qed.

(** A chain, stage by stage. *)
Lemma chain_nth (dims : list Z) :
  forall fd,
    (forall i, (i < length dims)%nat ->
       match i with O => fd | S j => nth j dims 0 end <> 0 /\
       nth i dims 0 mod match i with O => fd | S j => nth j dims 0 end = 0) ->
    chain fd dims.
Proof.
  induction dims as [| d rest IH]; intros fd H; simpl; [exact I |].
  destruct (H 0%nat) as [H0 H1]; [simpl; lia |].
  repeat split; [exact H0 | exact H1 |].
  apply IH. intros i Hi.
  destruct (H (S i)) as [Ha Hb]; [simpl; lia |].
  destruct i; simpl in *; auto.
Qed.

Lemma stride_list_length fd dims : length (stride_list fd dims) = length dims.
Proof. revert fd. induction dims; intros; simpl; auto. Qed.

Lemma stride_list_nth (dims : list Z) :
  forall fd i, (i < length dims)%nat ->
    nth i (stride_list fd dims) 0 =
    nth i dims 0 / match i with O => fd | S j => nth j dims 0 end.
Proof.
  induction dims as [| d rest IH]; intros fd i Hi; simpl in Hi; [lia |].
  destruct i as [| i]; simpl; [reflexivity |].
  rewrite IH by lia. destruct i; reflexivity.
Qed.

Lemma nth_firstn {A : Type} (l : list A) (k i : nat) (d : A) :
  (i < k)%nat -> nth i (firstn k l) d = nth i l d.
Proof.
  revert k i. induction l as [| x l IH]; intros k i H.
  - rewrite firstn_nil. reflexivity.
  - destruct k; [lia |]. destruct i; simpl; [reflexivity |].
    apply IH. lia.
Qed.

Lemma evenly_divisible_chain fc dims k :
  evenly_divisible fc dims -> chain (last fc 0) (firstn k dims).
Proof.
  intros H. apply chain_nth. intros i Hi.
  rewrite length_firstn in Hi.
  destruct (H i) as [Hnz Hdiv]; [lia |].
  assert (Hfd : match i with O => last fc 0 | S j => nth j (firstn k dims) 0 end
                = feature_dim_at fc dims i).
  { destruct i; [reflexivity |]. simpl. apply nth_firstn. lia. }
  rewrite Hfd, nth_firstn by lia.
  split; [exact Hnz |].
  apply Z.mod_divide; assumption.
Qed.

(** Under the hypotheses of the claims the function returns a network, and
    this is what it returns. *)
Lemma my_model_fn_ok batch input_size batch_size fc dims filters :
  fc <> [] ->
  evenly_divisible fc dims ->
  exists net,
    my_model_fn [batch; input_size] batch_size fc dims filters = Ok net /\
    strides (graph net) = stride_list (last fc 0) (firstn (length filters) dims) /\
    output net = match combine dims filters with
                 | [] => [batch; last fc 0]
                 | _ => [batch_size; last (firstn (length filters) dims) 0]
                 end.
Proof.
  intros Hfc Hdiv. unfold my_model_fn.
  destruct (fc_loop_rank2 fc 0%nat batch input_size []) as [ls [E Hls]].
  rewrite E. cbn [bind app].
  rewrite (last_default fc input_size 0 Hfc).
  unfold expand_dims. simpl Nat.leb. cbn [bind firstn skipn app].
  rewrite (last_item_last fc 0 Hfc). cbn [bind].
  set (st0 := mkLoop _ _ _ _).
  destruct (tconv_loop_ok batch_size (combine dims filters) 0%nat st0 batch)
    as [st' [E' [Hs Hu]]].
  - reflexivity.
  - rewrite map_fst_combine. apply evenly_divisible_chain. exact Hdiv.
  - rewrite E'. cbn [bind].
    rewrite map_fst_combine in Hu.
    rewrite map_fst_combine in Hs.
    assert (Hfinal : forall b w c (k : shape -> result network),
               bind (conv1d [b; w; c] 1 1) (fun up1 => bind (squeeze up1 2) k) =
               k [b; w]).
    { intros b w c k. simpl. rewrite Z.sub_add. reflexivity. }
    destruct (combine dims filters) as [| p rest] eqn:Hc.
    + rewrite Hu. subst st0. cbn [up]. rewrite Hfinal.
      eexists. split; [reflexivity |]. simpl. split; [| reflexivity].
      rewrite strides_app, Hs. simpl. rewrite strides_app, Hls.
      simpl. rewrite app_nil_r. reflexivity.
    + rewrite Hu. rewrite Hfinal.
      eexists. split; [reflexivity |]. simpl. split; [| reflexivity].
      rewrite strides_app, Hs. subst st0. simpl.
      rewrite strides_app, Hls. simpl. rewrite app_nil_r. reflexivity.
Qed.

(** C1. For an architecture whose stage widths are evenly divisible,
    [my_model_fn] builds the network, with one transposed convolution for
    each pair of [zip(tconv_dims, tconv_filters)], and the stride of stage
    [i] times the feature dimension that stage receives is exactly
    [tconv_dims[i]]. *)
Theorem stride_times_feature_dim batch input_size batch_size fc dims filters :
  fc <> [] ->
  evenly_divisible fc dims ->
  exists net,
    my_model_fn [batch; input_size] batch_size fc dims filters = Ok net /\
    length (strides (graph net)) = Nat.min (length dims) (length filters) /\
    forall i, (i < length (strides (graph net)))%nat ->
      feature_dim_at fc dims i * nth i (strides (graph net)) 0 = nth i dims 0.
Proof.
  intros Hfc Hdiv.
  destruct (my_model_fn_ok batch input_size batch_size fc dims filters Hfc Hdiv)
    as [net [E [Hs _]]].
  exists net. split; [exact E |].
  rewrite Hs, stride_list_length, length_firstn.
  split; [lia |].
  intros i Hi.
  rewrite stride_list_nth by (rewrite length_firstn; lia).
  rewrite nth_firstn by lia.
  assert (Hfd : match i with O => last fc 0
                | S j => nth j (firstn (length filters) dims) 0 end
                = feature_dim_at fc dims i).
  { destruct i; [reflexivity |]. simpl. apply nth_firstn. lia. }
  rewrite Hfd.
  destruct (Hdiv i) as [Hnz [q Hq]]; [lia |].
  rewrite Hq, Z.div_mul by exact Hnz. lia.
Qed.

Lemma stride_times_feature_dim_witness :
  exists net,
    my_model_fn [7; 2] 7 [100; 4] [8; 16; 48] [2; 3; 5] = Ok net /\
    length (strides (graph net)) = 3%nat /\
    forall i, (i < length (strides (graph net)))%nat ->
      feature_dim_at [100; 4] [8; 16; 48] i * nth i (strides (graph net)) 0 =
      nth i [8; 16; 48] 0.
Proof.
  apply (stride_times_feature_dim 7 2 7 [100; 4] [8; 16; 48] [2; 3; 5]).
  - discriminate.
  - intros i Hi. simpl in Hi.
    destruct i as [| [| [| i]]]; simpl; try lia.
    + split; [lia | exists 2; reflexivity].
    + split; [lia | exists 2; reflexivity].
    + split; [lia | exists 3; reflexivity].
Defined.




(** C6, as the spec states it, fails: with two widths and one filter count
    the network is built, with the single stage of the pair [(8, 2)]. *)
Lemma length_mismatch_is_not_an_error :
  length [2] <> length [8; 16] /\
  my_model_fn [7; 2] 7 [4] [8; 16] [2] =
    Ok (mkNetwork [7; 8]
          [Dense 0 4; ExpandDims 2; Conv1dTranspose 0 [3; 2; 1] [7; 8; 2] 2;
           Conv1dFinal; Squeeze 2]).
Proof. split; [discriminate | reflexivity]. Qed.

(** C6, amended. [zip] pairs the two lists up to the shorter one: whatever
    their lengths, [my_model_fn] returns what it returns on the two lists cut
    to the shorter length, and a difference of lengths raises nothing. *)
Theorem length_mismatch_truncates features batch_size fc dims filters :
  let k := Nat.min (length dims) (length filters) in
  my_model_fn features batch_size fc dims filters =
  my_model_fn features batch_size fc (firstn k dims) (firstn k filters).
Proof.
  intros k. unfold my_model_fn.
  rewrite <- combine_firstn.
  rewrite firstn_all2; [reflexivity |].
  rewrite length_combine. subst k. lia.
Qed.

End UtilsFacts.

(** ** The hooks *)

Module HookFacts.

Import NetworkHelper.
Local Open Scope hook_scope.



Lemma extends_refl w : extends w w.
Proof. exists []. rewrite app_nil_r. reflexivity. Qed.

Lemma extends_same w w' : trace w' = trace w -> extends w w'.
Proof. intros H. exists []. rewrite app_nil_r. exact H. Qed.

Lemma extends_trans w1 w2 w3 : extends w1 w2 -> extends w2 w3 -> extends w1 w3.
Proof.
  intros [t1 H1] [t2 H2]. exists (t1 ++ t2).
  rewrite H2, H1, app_assoc. reflexivity.
Qed.

Lemma monotone_bind {A B : Type} (m : M A) (k : A -> M B) :
  monotone m -> (forall a, monotone (k a)) -> monotone (mbind m k).
Proof.
  intros Hm Hk w. unfold mbind. specialize (Hm w).
  destruct (m w) as [w' [a | e]]; simpl in *; [| exact Hm].
  eapply extends_trans; [exact Hm | apply Hk].
Qed.

Lemma monotone_ret {A : Type} (a : A) : monotone (ret a).
Proof. intros w. apply extends_refl. Qed.

Lemma monotone_raise {A : Type} (e : exn) : monotone (@raise A e).
Proof. intros w. apply extends_refl. Qed.


Lemma monotone_emit e : monotone (emit e).
Proof. intros w. exists [e]. reflexivity. Qed.

Lemma monotone_next_batch : monotone next_batch.
Proof.
  intros w. unfold next_batch.
  destruct (iterator w) as [| [b | e] rest]; apply extends_same; reflexivity.
Qed.

Lemma monotone_value_log name val step wr :
  monotone (HookValueSummary_log name val step wr).
Proof.
  destruct wr; [apply monotone_emit | apply monotone_raise].
Qed.

Lemma monotone_train_action h wr : monotone (TrainValueHook_action h wr).
Proof.
  unfold TrainValueHook_action.
  apply monotone_bind; [apply monotone_emit | intros _].
  apply monotone_bind; [apply monotone_next_batch | intros b].
  apply monotone_bind.
  - destruct (verb h); [apply monotone_emit | apply monotone_ret].
  - intros _. destruct (t_write_summary h);
      [apply monotone_value_log | apply monotone_ret].
Qed.







Lemma mod_zero_divide (v n : Z) : v <> 0 -> (n mod v =? 0) = true <-> (v | n).
Proof.
  intros Hv. rewrite Z.eqb_eq. apply Z.mod_divide. exact Hv.
Qed.






(** With [verb_step = 5], eleven invocations print on ticks 0, 5 and 10 and
    on no other. *)
Example train_hook_verb_step_5 :
  let h0 := mkTrainValueHook (-1) 5 false "mean_squared_error" true in
  let b := Batch (mkBatch (1 # 2) [] []) in
  let w := mkWorld [b; b; b; b] (fun n => seq 0 n) [] in
  trace (snd (invoke_train 11 h0 None w)) =
    [SessRunLoss; PrintStep 0 (1 # 2);
     SessRunLoss; PrintStep 5 (1 # 2);
     SessRunLoss; PrintStep 10 (1 # 2)].
Proof. reflexivity. Qed.


(** With [eval_step = 10], thirty-one invocations evaluate on ticks 10, 20
    and 30 and on no other, tick 0 included. *)
Example validation_hook_eval_step_10 :
  let h0 := mkValidationHook (-1) 10 [Batch (mkBatch (1 # 2) [] [])] false 6 in
  let w := mkWorld [] (fun n => seq 0 n) [] in
  trace (snd (invoke_valid 31 h0 None w)) =
    [SessRunInit; SessRunBatch; SessRunBatch; PrintEval 10 (Num (1 # 2));
     SessRunInit; SessRunBatch; SessRunBatch; PrintEval 20 (Num (1 # 2));
     SessRunInit; SessRunBatch; SessRunBatch; PrintEval 30 (Num (1 # 2))].
Proof. vm_compute. reflexivity. Qed.

(** *** A validation pass *)

Lemma last_map_Some {A : Type} (l : list A) :
  l <> [] -> exists x, last (map Some l) None = Some x.
Proof.
  intros Hl. destruct (exists_last Hl) as [l' [x ->]].
  exists x. rewrite map_app. simpl. apply last_last.
Qed.

Lemma final_batch_cons b bs :
  final_batch (b :: bs) =
  match final_batch bs with
  | Some b' => Some b'
  | None => Some b
  end.
Proof.
  unfold final_batch. destruct bs as [| b' bs']; [reflexivity |].
  change (last (map Some (b :: b' :: bs')) None)
    with (last (map Some (b' :: bs')) None).
  destruct (last_map_Some (b' :: bs')) as [x ->]; [discriminate | reflexivity].
Qed.

Lemma final_batch_nonempty bs : bs <> [] -> exists b, final_batch bs = Some b.
Proof. apply last_map_Some. Qed.

(** The loop reads every batch, in order, then meets the end of the data,
    which ends it without an exception. *)
Lemma drain_batches (bs : list batch) :
  forall acc w,
    drain (map Batch bs) acc w =
    (mkWorld [] (rng w) (trace w ++ repeat SessRunBatch (S (length bs))),
     Ok (mkDrained (loss_val acc ++ map b_loss bs)
           (match final_batch bs with
            | Some b => Some (b_truth b)
            | None => truth acc
            end)
           (match final_batch bs with
            | Some b => Some (b_pred b)
            | None => pred acc
            end))).
Proof.
  induction bs as [| b bs IH]; intros acc w.
  - simpl. rewrite app_nil_r. destruct acc; reflexivity.
  - cbn [map drain]. rewrite IH. cbn [rng trace loss_val truth pred].
    rewrite final_batch_cons.
    rewrite <- !app_assoc. cbn [app length repeat].
    destruct (final_batch bs); reflexivity.
Qed.

Lemma keeps_iterator_bind {A B : Type} (m : M A) (k : A -> M B) :
  keeps_iterator m -> (forall a, keeps_iterator (k a)) -> keeps_iterator (mbind m k).
Proof.
  intros Hm Hk w. unfold mbind. specialize (Hm w).
  destruct (m w) as [w' [a | e]]; simpl in *; [| exact Hm].
  rewrite Hk. exact Hm.
Qed.

Lemma never_out_of_range_bind {A B : Type} (m : M A) (k : A -> M B) :
  never_out_of_range m -> (forall a, never_out_of_range (k a)) ->
  never_out_of_range (mbind m k).
Proof.
  intros Hm Hk w. unfold mbind. specialize (Hm w).
  destruct (m w) as [w' [a | e]]; simpl in *; [apply Hk |].
  intros [= ->]. apply Hm. reflexivity.
Qed.

Lemma index_not_out_of_range {A : Type} (l : list A) (i : nat) :
  index l i <> Raise OutOfRangeError.
Proof. unfold index. destruct (nth_error l i); discriminate. Qed.

Lemma row_sub_not_out_of_range a b : row_sub a b <> Raise OutOfRangeError.
Proof.
  unfold row_sub. destruct (length a =? length b)%nat; [discriminate |].
  destruct a as [| x [| x' a]]; destruct b as [| y [| y' b]]; discriminate.
Qed.

Lemma bind_not_out_of_range {A B : Type} (r : result A) (k : A -> result B) :
  r <> Raise OutOfRangeError ->
  (forall a, k a <> Raise OutOfRangeError) ->
  bind r k <> Raise OutOfRangeError.
Proof.
  intros Hr Hk. destruct r as [a | e]; simpl; [apply Hk |].
  intros [= ->]. apply Hr. reflexivity.
Qed.

Lemma plot_curves_not_out_of_range truth pred fig_idx (n : nat) :
  forall i, plot_curves truth pred fig_idx i n <> Raise OutOfRangeError.
Proof.
  induction n as [| n IH]; intros i; cbn [plot_curves]; [discriminate |].
  destruct (6 <=? i)%nat; [discriminate |].
  apply bind_not_out_of_range; [apply index_not_out_of_range | intros k].
  apply bind_not_out_of_range; [apply index_not_out_of_range | intros t].
  apply bind_not_out_of_range.
  { destruct pred; [apply index_not_out_of_range | discriminate]. }
  intros p.
  apply bind_not_out_of_range; [apply row_sub_not_out_of_range | intros d].
  apply bind_not_out_of_range; [apply IH | discriminate].
Qed.

Lemma value_log_quiet name val step wr :
  keeps_iterator (HookValueSummary_log name val step wr) /\
  never_out_of_range (HookValueSummary_log name val step wr).
Proof.
  destruct wr as [x |]; split; intros w; simpl; try reflexivity; discriminate.
Qed.

Lemma curve_log_quiet name truth pred step wr curve_num :
  keeps_iterator (HookCurvePlotSummary_log name truth pred step wr curve_num) /\
  never_out_of_range (HookCurvePlotSummary_log name truth pred step wr curve_num).
Proof.
  unfold HookCurvePlotSummary_log.
  destruct truth as [t |]; [| split; intros w; simpl; [reflexivity | discriminate]].
  split.
  - apply keeps_iterator_bind; [intros w; reflexivity | intros fig_idx].
    apply keeps_iterator_bind; [intros w; reflexivity | intros curves].
    destruct wr as [x |]; intros w; reflexivity.
  - apply never_out_of_range_bind; [intros w; discriminate | intros fig_idx].
    apply never_out_of_range_bind.
    + intros w. apply plot_curves_not_out_of_range.
    + intros curves. destruct wr as [x |]; intros w; discriminate.
Qed.

Lemma summaries_quiet h loss_mean truth pred wr :
  keeps_iterator (ValidationHook_summaries h loss_mean truth pred wr) /\
  never_out_of_range (ValidationHook_summaries h loss_mean truth pred wr).
Proof.
  unfold ValidationHook_summaries.
  destruct (v_write_summary h);
    [| split; intros w; simpl; [reflexivity | discriminate]].
  split.
  - apply keeps_iterator_bind; [apply value_log_quiet | intros _].
    apply curve_log_quiet.
  - apply never_out_of_range_bind; [apply value_log_quiet | intros _].
    apply curve_log_quiet.
Qed.

(** What a firing tick does on a stream of the batches [bs]. *)
Lemma validation_action_batches h wr w bs :
  valid_init_op h = map Batch bs ->
  ValidationHook_action h wr w =
  ValidationHook_summaries h (np_mean (map b_loss bs))
    (option_map b_truth (final_batch bs)) (option_map b_pred (final_batch bs)) wr
    (mkWorld [] (rng w)
       (trace w ++ SessRunInit :: repeat SessRunBatch (S (length bs)) ++
          [PrintEval (v_step h) (np_mean (map b_loss bs))])).
Proof.
  intros Hop. unfold ValidationHook_action, mbind, run_init, emit.
  cbn [iterator]. rewrite Hop, drain_batches.
  cbn [rng trace iterator loss_val truth pred app].
  rewrite <- !app_assoc. cbn [app].
  destruct (final_batch bs); reflexivity.
Qed.

Lemma validation_run_fires h wr w :
  valid_step h <> 0 ->
  (valid_step h | v_step h + 1) ->
  v_step h + 1 <> 0 ->
  snd (ValidationHook_run h wr w) =
  ValidationHook_action (fst (ValidationHook_run h wr w)) wr w.
Proof.
  intros Hv Hd Hn. cbn [ValidationHook_run fst snd valid_step v_step].
  destruct (Z.eqb_spec (valid_step h) 0) as [E | _]; [contradiction |].
  apply (mod_zero_divide _ _ Hv) in Hd. rewrite Hd.
  destruct (Z.eqb_spec (v_step h + 1) 0) as [E | _]; [contradiction |].
  reflexivity.
Qed.

(** C5. On a tick where the validation hook fires, with a stream of the
    batches [bs]: the hook rewinds the stream and reads it to its end (one
    read per batch and the read that meets the end of the data); the end of
    the data is caught, so that [run] never raises it and, with summaries
    off, returns normally; the loss printed and logged is the mean of the
    losses of all the batches; and the truth and prediction arrays given to
    the curve plot are those of the last batch read. *)
Theorem validation_pass_drains_stream h wr w bs :
  valid_step h <> 0 ->
  (valid_step h | v_step h + 1) ->
  v_step h + 1 <> 0 ->
  valid_init_op h = map Batch bs ->
  let out := ValidationHook_run h wr w in
  let loss_mean := np_mean (map b_loss bs) in
  let w1 := mkWorld [] (rng w)
              (trace w ++ SessRunInit :: repeat SessRunBatch (S (length bs)) ++
                 [PrintEval (v_step h + 1) loss_mean]) in
  snd out =
    ValidationHook_summaries (fst out) loss_mean
      (option_map b_truth (final_batch bs)) (option_map b_pred (final_batch bs))
      wr w1 /\
  snd (snd out) <> Raise OutOfRangeError /\
  iterator (fst (snd out)) = [] /\
  (v_write_summary h = false -> snd out = (w1, Ok tt)) /\
  (forall bs' b, bs = bs' ++ [b] ->
     loss_mean = Num (Qsum (map b_loss bs) / inject_Z (Z.of_nat (length bs))) /\
     final_batch bs = Some b).
Proof.
  intros Hv Hd Hn Hop out loss_mean w1.
  assert (Hout : snd out =
                 ValidationHook_summaries (fst out) loss_mean
                   (option_map b_truth (final_batch bs))
                   (option_map b_pred (final_batch bs)) wr w1).
  { subst out. rewrite (validation_run_fires h wr w Hv Hd Hn).
    rewrite (validation_action_batches _ wr w bs); [reflexivity | exact Hop]. }
  split; [exact Hout |].
  destruct (summaries_quiet (fst out) loss_mean
              (option_map b_truth (final_batch bs))
              (option_map b_pred (final_batch bs)) wr) as [Hk Hr].
  split; [rewrite Hout; apply Hr |].
  split; [rewrite Hout, Hk; reflexivity |].
  split.
  - intros Hws. rewrite Hout. unfold ValidationHook_summaries.
    subst out. cbn [ValidationHook_run fst v_write_summary]. rewrite Hws.
    reflexivity.
  - intros bs' b ->. split.
    + subst loss_mean. unfold np_mean.
      destruct (map b_loss (bs' ++ [b])) as [| x l] eqn:E.
      * apply (f_equal (@length Q)) in E.
        rewrite length_map, length_app in E. simpl in E. lia.
      * rewrite <- E, length_map. reflexivity.
    + unfold final_batch. rewrite map_app. apply last_last.
Qed.

Lemma validation_pass_drains_stream_witness :
  let b1 := (mkBatch 1 [[1; 2]] [[1; 2]])%Q in
  let b2 := (mkBatch 3 [[3; 4]] [[5; 4]])%Q in
  let h := mkValidationHook 9 10 [Batch b1; Batch b2] true 1 in
  let w := mkWorld [] (fun n => seq 0 n) [] in
  let out := ValidationHook_run h (Some FileWriter) w in
  let loss_mean := np_mean [1; 3]%Q in
  let w1 := mkWorld [] (rng w)
              [SessRunInit; SessRunBatch; SessRunBatch; SessRunBatch;
               PrintEval 10 loss_mean] in
  snd out =
    ValidationHook_summaries (fst out) loss_mean (Some [[3; 4]]%Q) (Some [[5; 4]]%Q)
      (Some FileWriter) w1 /\
  snd (snd out) <> Raise OutOfRangeError /\
  iterator (fst (snd out)) = [] /\
  (true = false -> snd out = (w1, Ok tt)) /\
  (forall bs' b, [b1; b2] = bs' ++ [b] ->
     loss_mean = Num (Qsum [1; 3]%Q / inject_Z 2) /\
     final_batch [b1; b2] = Some b).
Proof.
  intros b1 b2 h w out loss_mean w1.
  apply (validation_pass_drains_stream h (Some FileWriter) w [b1; b2]).
  - simpl. lia.
  - exists 1. reflexivity.
  - simpl. lia.
  - reflexivity.
Defined.

(** A firing tick with summaries on: three reads for two batches, the mean
    of the losses 1 and 3 (the fraction 4/2), and the curve of the last
    batch, whose sum of squares is 4. *)
Example firing_tick_with_summaries :
  let b1 := (mkBatch 1 [[1; 2]] [[1; 2]])%Q in
  let b2 := (mkBatch 3 [[3; 4]] [[5; 4]])%Q in
  let h := mkValidationHook 9 10 [Batch b1; Batch b2] true 1 in
  let w := mkWorld [] (fun n => seq 0 n) [] in
  snd (ValidationHook_run h (Some FileWriter) w) =
    (mkWorld [] (rng w)
       [SessRunInit; SessRunBatch; SessRunBatch; SessRunBatch;
        PrintEval 10 (Num (4 # 2));
        ScalarSummary "valid_mse" (Num (4 # 2)) 10;
        CurveSummary "pred_plot" [([3; 4], [5; 4], 4)]%Q 10],
     Ok tt).
Proof. vm_compute. reflexivity. Qed.

(** C10. On a tick where the validation hook fires and the stream ends
    before any batch, the list of losses is empty, the mean that is printed
    is [nan], and the summaries receive [nan], [None] and [None]: with
    summaries on, [run] raises [AttributeError] (after logging [nan] when
    there is a writer); with summaries off it returns normally. *)
Theorem empty_validation_pass h wr w :
  valid_step h <> 0 ->
  (valid_step h | v_step h + 1) ->
  v_step h + 1 <> 0 ->
  valid_init_op h = [] ->
  let out := ValidationHook_run h wr w in
  let w1 := mkWorld [] (rng w)
              (trace w ++ [SessRunInit; SessRunBatch; PrintEval (v_step h + 1) NaN]) in
  drain [] (mkDrained [] None None) w =
    (mkWorld [] (rng w) (trace w ++ [SessRunBatch]), Ok (mkDrained [] None None)) /\
  np_mean [] = NaN /\
  snd out = ValidationHook_summaries (fst out) NaN None None wr w1 /\
  (v_write_summary h = false -> snd out = (w1, Ok tt)) /\
  (v_write_summary h = true -> snd (snd out) = Raise AttributeError) /\
  (v_write_summary h = true -> wr = Some FileWriter ->
     snd out =
       (mkWorld [] (rng w)
          (trace w ++ [SessRunInit; SessRunBatch; PrintEval (v_step h + 1) NaN;
                       ScalarSummary "valid_mse" NaN (v_step h + 1)]),
        Raise AttributeError)).
Proof.
  intros Hv Hd Hn Hop out w1.
  assert (Hout : snd out = ValidationHook_summaries (fst out) NaN None None wr w1).
  { subst out. rewrite (validation_run_fires h wr w Hv Hd Hn).
    rewrite (validation_action_batches _ wr w []); [reflexivity | exact Hop]. }
  split; [reflexivity |].
  split; [reflexivity |].
  split; [exact Hout |].
  assert (Hws : v_write_summary (fst out) = v_write_summary h) by reflexivity.
  assert (Hst : v_step (fst out) = v_step h + 1) by reflexivity.
  unfold ValidationHook_summaries in Hout. rewrite Hws, Hst in Hout.
  split; [| split].
  - intros E. rewrite Hout, E. reflexivity.
  - intros E. rewrite Hout, E. destruct wr as [x |]; reflexivity.
  - intros E ->. rewrite Hout, E. subst w1. unfold mbind. cbn.
    rewrite <- app_assoc. reflexivity.
Qed.

Lemma empty_validation_pass_witness :
  let h := mkValidationHook 9 10 [] true 6 in
  let w := mkWorld [] (fun n => seq 0 n) [] in
  let out := ValidationHook_run h (Some FileWriter) w in
  let w1 := mkWorld [] (rng w) [SessRunInit; SessRunBatch; PrintEval 10 NaN] in
  drain [] (mkDrained [] None None) w =
    (mkWorld [] (rng w) [SessRunBatch], Ok (mkDrained [] None None)) /\
  np_mean [] = NaN /\
  snd out = ValidationHook_summaries (fst out) NaN None None (Some FileWriter) w1 /\
  (true = false -> snd out = (w1, Ok tt)) /\
  (true = true -> snd (snd out) = Raise AttributeError) /\
  (true = true -> Some FileWriter = Some FileWriter ->
     snd out =
       (mkWorld [] (rng w)
          [SessRunInit; SessRunBatch; PrintEval 10 NaN;
           ScalarSummary "valid_mse" NaN 10],
        Raise AttributeError)).
Proof.
  intros h w out w1.
  apply (empty_validation_pass h (Some FileWriter) w).
  - simpl. lia.
  - exists 1. reflexivity.
  - simpl. lia.
  - reflexivity.
Defined.

End HookFacts.

(** ** The metadata parser *)

Module ParserFacts.

Import NetworkHelper.
Local Open Scope string_scope.

Lemma append_assoc (a b c : string) : (a ++ b) ++ c = a ++ (b ++ c).
Proof. induction a as [| x a IH]; simpl; [reflexivity | rewrite IH; reflexivity]. Qed.

Lemma append_nil_r (a : string) : a ++ EmptyString = a.
Proof. induction a as [| x a IH]; simpl; [reflexivity | rewrite IH; reflexivity]. Qed.

Lemma append_eq_nil (a b : string) : a ++ b = EmptyString -> a = EmptyString.
Proof. destruct a; simpl; [reflexivity | discriminate]. Qed.

(** [replace_str] works character by character. *)
Lemma replace_str_cons a s :
  replace_str (String a s) =
  String (if sep_char a then " "%char else a) (replace_str s).
Proof.
  unfold replace_str, sep_char. cbn [fold_left replace_space].
  destruct (Ascii.eqb a ","%char) eqn:E1; [reflexivity |].
  destruct (Ascii.eqb a "("%char) eqn:E2; [reflexivity |].
  destruct (Ascii.eqb a ")"%char) eqn:E3; reflexivity.
Qed.

Lemma replace_str_app s1 s2 :
  replace_str (s1 ++ s2) = replace_str s1 ++ replace_str s2.
Proof.
  induction s1 as [| a s1 IH]; [reflexivity |].
  cbn [append]. rewrite !replace_str_cons, IH. reflexivity.
Qed.

Lemma blank_replaced a :
  blank a = true -> isspace (if sep_char a then " "%char else a) = true.
Proof.
  unfold blank. destruct (sep_char a); [reflexivity |].
  rewrite orb_false_r. auto.
Qed.

Lemma not_blank_replaced a :
  blank a = false ->
  (if sep_char a then " "%char else a) = a /\ isspace a = false.
Proof.
  unfold blank. rewrite orb_false_iff. intros [H1 H2]. rewrite H2. auto.
Qed.

(** A token is read up to the separator that follows it. *)
Lemma split_from_token (tok : string) :
  forall cur s,
    no_blank tok = true ->
    split_from cur (replace_str (tok ++ s)) =
    split_from (cur ++ tok) (replace_str s).
Proof.
  induction tok as [| a tok IH]; intros cur s H.
  - rewrite append_nil_r. reflexivity.
  - cbn [no_blank] in H. apply andb_true_iff in H. destruct H as [Ha Ht].
    apply negb_true_iff in Ha.
    destruct (not_blank_replaced a Ha) as [E1 E2].
    cbn [append]. rewrite replace_str_cons, E1. cbn [split_from]. rewrite E2.
    rewrite IH by exact Ht. rewrite append_assoc. reflexivity.
Qed.

Lemma split_from_blanks (sp : string) :
  forall s,
    all_blank sp = true ->
    split_from EmptyString (replace_str (sp ++ s)) =
    split_from EmptyString (replace_str s).
Proof.
  induction sp as [| a sp IH]; intros s H; [reflexivity |].
  cbn [all_blank] in H. apply andb_true_iff in H. destruct H as [Ha Hs].
  cbn [append]. rewrite replace_str_cons. cbn [split_from].
  rewrite (blank_replaced a Ha). cbn. apply IH. exact Hs.
Qed.

(** A separator ends the token before it. *)
Lemma split_from_separator (sp cur s : string) :
  separator sp = true ->
  cur <> EmptyString ->
  split_from cur (replace_str (sp ++ s)) =
  cur :: split_from EmptyString (replace_str s).
Proof.
  unfold separator. intros H Hcur. apply andb_true_iff in H.
  destruct H as [Hne Hb]. destruct sp as [| a sp]; [discriminate |].
  cbn [all_blank] in Hb. apply andb_true_iff in Hb. destruct Hb as [Ha Hs].
  cbn [append]. rewrite replace_str_cons. cbn [split_from].
  rewrite (blank_replaced a Ha).
  destruct (String.eqb_spec cur EmptyString) as [E | _]; [contradiction |].
  f_equal. apply split_from_blanks. exact Hs.
Qed.

(** *** Decimal numerals *)

Lemma all_digits_uint (d : Decimal.uint) :
  all_digits (NilEmpty.string_of_uint d) = true.
Proof. induction d; simpl; auto. Qed.

Lemma digit_not_blank a : is_digit a = true -> blank a = false.
Proof.
  destruct a as [[] [] [] [] [] [] [] []]; vm_compute; congruence.
Qed.

Lemma all_digits_no_blank s : all_digits s = true -> no_blank s = true.
Proof.
  induction s as [| a s IH]; [reflexivity |].
  cbn [all_digits no_blank]. intros H. apply andb_true_iff in H.
  destruct H as [Ha Hs]. rewrite (digit_not_blank a Ha), IH by exact Hs.
  reflexivity.
Qed.

Lemma int_from_uint_acc (d : Decimal.uint) :
  forall acc,
    int_from (Z.pos acc) (NilEmpty.string_of_uint d) =
    Z.pos (Pos.of_uint_acc d acc).
Proof.
  induction d; intros acc; cbn [NilEmpty.string_of_uint int_from Pos.of_uint_acc];
    [reflexivity | ..];
    rewrite <- IHd; f_equal; vm_compute (Z.of_nat (nat_of_ascii _) - 48)%Z; lia.
Qed.

Lemma int_uint (d : Decimal.uint) :
  int (NilEmpty.string_of_uint d) = Z.of_N (Pos.of_uint d).
Proof.
  unfold int. induction d; cbn [NilEmpty.string_of_uint int_from Pos.of_uint];
    [reflexivity | exact IHd | ..];
    cbn [Z.of_N]; rewrite <- int_from_uint_acc; reflexivity.
Qed.

Lemma str_nonneg (v : Z) :
  (0 <= v)%Z -> str v = NilEmpty.string_of_uint (N.to_uint (Z.to_N v)).
Proof. intros H. destruct v; [reflexivity | reflexivity | lia]. Qed.

Lemma str_nonempty (v : Z) : (0 <= v)%Z -> str v <> EmptyString.
Proof.
  intros H. destruct v as [| p | p]; [discriminate | | lia].
  unfold str. cbn. pose proof (Unsigned.to_uint_nonnil p) as Hp.
  destruct (Pos.to_uint p); [contradiction | discriminate ..].
Qed.

Lemma str_all_digits (v : Z) : (0 <= v)%Z -> all_digits (str v) = true.
Proof. intros H. rewrite str_nonneg by exact H. apply all_digits_uint. Qed.

Lemma str_isdigit (v : Z) : (0 <= v)%Z -> isdigit (str v) = true.
Proof.
  intros H. unfold isdigit. rewrite str_all_digits by exact H.
  destruct (String.eqb_spec (str v) EmptyString) as [E | _]; [| reflexivity].
  exfalso. exact (str_nonempty v H E).
Qed.

(** [int(str(v)) == v]. *)
Lemma int_str (v : Z) : (0 <= v)%Z -> int (str v) = v.
Proof.
  intros H. rewrite str_nonneg by exact H. rewrite int_uint.
  change (Pos.of_uint (N.to_uint (Z.to_N v))) with (N.of_uint (N.to_uint (Z.to_N v))).
  rewrite DecimalN.Unsigned.of_to. lia.
Qed.

(** *** One line *)

Lemma split_render (items : list (Z * string)) :
  well_formed items ->
  split_from EmptyString (replace_str (render items)) =
  map (fun it => str (fst it)) items.
Proof.
  induction 1 as [| [v sep] items [Hv Hsep] _ IH]; [reflexivity |].
  cbn [render map fst]. cbn [fst snd] in Hv, Hsep.
  rewrite split_from_token
    by (apply all_digits_no_blank, str_all_digits; exact Hv).
  cbn [append].
  rewrite split_from_separator; [| exact Hsep | apply str_nonempty; exact Hv].
  rewrite IH. reflexivity.
Qed.

Lemma filter_isdigit_str (items : list (Z * string)) :
  well_formed items ->
  filter isdigit (map (fun it => str (fst it)) items) =
  map (fun it => str (fst it)) items.
Proof.
  induction 1 as [| [v sep] items [Hv _] _ IH]; [reflexivity |].
  cbn [map filter fst]. cbn [fst] in Hv.
  rewrite (str_isdigit v Hv), IH. reflexivity.
Qed.

Lemma map_int_str (items : list (Z * string)) :
  well_formed items ->
  map int (map (fun it => str (fst it)) items) = map fst items.
Proof.
  induction 1 as [| [v sep] items [Hv _] _ IH]; [reflexivity |].
  cbn [map fst]. cbn [fst] in Hv. rewrite (int_str v Hv), IH. reflexivity.
Qed.

(** The integers of an attribute line are read back, in order. *)
Lemma parse_ints_attribute_line name sep0 items :
  no_blank name = true ->
  name <> EmptyString ->
  isdigit name = false ->
  separator sep0 = true ->
  well_formed items ->
  parse_ints (attribute_line name sep0 items) = map fst items.
Proof.
  intros Hname Hne Hnd Hsep Hwf. unfold parse_ints, split, attribute_line.
  rewrite split_from_token by exact Hname. cbn [append].
  rewrite split_from_separator by assumption.
  rewrite split_render by exact Hwf.
  cbn [filter]. rewrite Hnd, filter_isdigit_str by exact Hwf.
  apply map_int_str. exact Hwf.
Qed.

(** *** The written format is an instance of the general one *)

Lemma join_tuple_items (l : list Z) :
  l <> [] ->
  join ", " (map str l) ++ ")" ++ newline = render (tuple_items l).
Proof.
  induction l as [| x [| y r] IH]; intros Hl; [contradiction | |].
  - cbn. reflexivity.
  - change (join ", " (map str (x :: y :: r)))
      with (str x ++ ", " ++ join ", " (map str (y :: r))).
    change (render (tuple_items (x :: y :: r)))
      with (str x ++ ", " ++ render (tuple_items (y :: r))).
    rewrite <- IH by discriminate.
    rewrite !append_assoc. reflexivity.
Qed.

Lemma meta_line_attribute_line name l :
  meta_line name l =
  attribute_line name (fst (meta_items l)) (snd (meta_items l)).
Proof.
  unfold meta_line, attribute_line.
  destruct l as [| x [| y r]].
  - reflexivity.
  - cbn. rewrite append_assoc. reflexivity.
  - unfold meta_items, tuple_repr. cbn [fst snd].
    rewrite <- join_tuple_items by discriminate.
    cbn [append]. rewrite !append_assoc. reflexivity.
Qed.

Lemma tuple_items_fst (l : list Z) : map fst (tuple_items l) = l.
Proof.
  induction l as [| x [| y r] IH]; [reflexivity | reflexivity |].
  change (tuple_items (x :: y :: r)) with ((x, ", ") :: tuple_items (y :: r)).
  cbn [map fst]. rewrite IH. reflexivity.
Qed.

Lemma tuple_items_well_formed (l : list Z) :
  Forall (fun v => (0 <= v)%Z) l -> well_formed (tuple_items l).
Proof.
  induction l as [| x [| y r] IH]; intros H.
  - constructor.
  - inversion H; subst. constructor; [split; [assumption | reflexivity] | constructor].
  - inversion H; subst.
    change (tuple_items (x :: y :: r)) with ((x, ", ") :: tuple_items (y :: r)).
    constructor; [split; [assumption | reflexivity] | apply IH; assumption].
Qed.

Lemma meta_items_spec (l : list Z) :
  Forall (fun v => (0 <= v)%Z) l ->
  separator (fst (meta_items l)) = true /\
  well_formed (snd (meta_items l)) /\
  map fst (snd (meta_items l)) = l.
Proof.
  intros H. destruct l as [| x [| y r]].
  - repeat split. constructor.
  - inversion H; subst. repeat split.
    constructor; [split; [assumption | reflexivity] | constructor].
  - unfold meta_items. cbn [fst snd].
    split; [reflexivity |].
    split; [apply tuple_items_well_formed; exact H | apply tuple_items_fst].
Qed.

(** *** The loop over the lines *)

Lemma substring_0_0 (s : string) : substring 0 0 s = EmptyString.
Proof. destruct s; reflexivity. Qed.

Lemma parse_line_prefix_fc_filters p rest :
  parse_line p ("fc_filters" ++ rest) =
  mkParameters (Some (parse_ints ("fc_filters" ++ rest)))
    (tconv_dims p) (tconv_filters p).
Proof.
  unfold parse_line. cbn [append substring]. rewrite !substring_0_0.
  reflexivity.
Qed.

Lemma parse_line_prefix_tconv_dims p rest :
  parse_line p ("tconv_dims" ++ rest) =
  mkParameters (fc_filters p) (Some (parse_ints ("tconv_dims" ++ rest)))
    (tconv_filters p).
Proof.
  unfold parse_line. cbn [append substring]. rewrite !substring_0_0.
  reflexivity.
Qed.

Lemma parse_line_prefix_tconv_filters p rest :
  parse_line p ("tconv_filters" ++ rest) =
  mkParameters (fc_filters p) (tconv_dims p)
    (Some (parse_ints ("tconv_filters" ++ rest))).
Proof.
  unfold parse_line. cbn [append substring]. rewrite !substring_0_0.
  reflexivity.
Qed.

Lemma parse_line_fc_filters p fc line :
  describes "fc_filters" fc line ->
  parse_line p line = mkParameters (Some fc) (tconv_dims p) (tconv_filters p).
Proof.
  intros [sep0 [items [-> [Hsep [Hwf <-]]]]].
  rewrite <- (parse_ints_attribute_line "fc_filters" sep0 items)
    by (try reflexivity; try assumption; discriminate).
  apply parse_line_prefix_fc_filters.
Qed.

Lemma parse_line_tconv_dims p dims line :
  describes "tconv_dims" dims line ->
  parse_line p line = mkParameters (fc_filters p) (Some dims) (tconv_filters p).
Proof.
  intros [sep0 [items [-> [Hsep [Hwf <-]]]]].
  rewrite <- (parse_ints_attribute_line "tconv_dims" sep0 items)
    by (try reflexivity; try assumption; discriminate).
  apply parse_line_prefix_tconv_dims.
Qed.

Lemma parse_line_tconv_filters p filters line :
  describes "tconv_filters" filters line ->
  parse_line p line = mkParameters (fc_filters p) (tconv_dims p) (Some filters).
Proof.
  intros [sep0 [items [-> [Hsep [Hwf <-]]]]].
  rewrite <- (parse_ints_attribute_line "tconv_filters" sep0 items)
    by (try reflexivity; try assumption; discriminate).
  apply parse_line_prefix_tconv_filters.
Qed.

Lemma not_fc_filters_and_tconv_dims a b line :
  describes "fc_filters" a line -> describes "tconv_dims" b line -> False.
Proof.
  intros [s0 [i0 [-> _]]] [s1 [i1 [E _]]].
  unfold attribute_line in E. cbn [append] in E. discriminate.
Qed.

Lemma not_fc_filters_and_tconv_filters a b line :
  describes "fc_filters" a line -> describes "tconv_filters" b line -> False.
Proof.
  intros [s0 [i0 [-> _]]] [s1 [i1 [E _]]].
  unfold attribute_line in E. cbn [append] in E. discriminate.
Qed.

Lemma not_tconv_dims_and_tconv_filters a b line :
  describes "tconv_dims" a line -> describes "tconv_filters" b line -> False.
Proof.
  intros [s0 [i0 [-> _]]] [s1 [i1 [E _]]].
  unfold attribute_line in E. cbn [append] in E. discriminate.
Qed.

Lemma not_unrelated_fc_filters a line :
  unrelated line -> describes "fc_filters" a line -> False.
Proof.
  intros Hu Hd. specialize (Hu (mkParameters None None None)).
  rewrite (parse_line_fc_filters _ a line Hd) in Hu. discriminate.
Qed.

Lemma not_unrelated_tconv_dims a line :
  unrelated line -> describes "tconv_dims" a line -> False.
Proof.
  intros Hu Hd. specialize (Hu (mkParameters None None None)).
  rewrite (parse_line_tconv_dims _ a line Hd) in Hu. discriminate.
Qed.

Lemma not_unrelated_tconv_filters a line :
  unrelated line -> describes "tconv_filters" a line -> False.
Proof.
  intros Hu Hd. specialize (Hu (mkParameters None None None)).
  rewrite (parse_line_tconv_filters _ a line Hd) in Hu. discriminate.
Qed.

Create HintDb exclusive.

#[local] Hint Resolve not_fc_filters_and_tconv_dims
  not_fc_filters_and_tconv_filters not_tconv_dims_and_tconv_filters
  not_unrelated_fc_filters not_unrelated_tconv_dims
  not_unrelated_tconv_filters : exclusive.

(** One line binds the attribute it describes and keeps the others. *)
Lemma parse_line_step fc dims filters p line :
  written fc dims filters [line] ->
  agrees fc dims filters p ->
  agrees fc dims filters (parse_line p line) /\
  (fc_filters p = Some fc \/ describes "fc_filters" fc line ->
   fc_filters (parse_line p line) = Some fc) /\
  (tconv_dims p = Some dims \/ describes "tconv_dims" dims line ->
   tconv_dims (parse_line p line) = Some dims) /\
  (tconv_filters p = Some filters \/ describes "tconv_filters" filters line ->
   tconv_filters (parse_line p line) = Some filters).
Proof.
  intros Hw [Hp1 [Hp2 Hp3]]. inversion Hw as [| x l Hline _]; subst.
  destruct Hline as [Hl | [Hl | [Hl | Hl]]].
  - rewrite (parse_line_fc_filters p fc line Hl). unfold agrees. cbn.
    repeat split; auto;
      intros [H | H]; try exact H; exfalso; eauto with exclusive.
  - rewrite (parse_line_tconv_dims p dims line Hl). unfold agrees. cbn.
    repeat split; auto;
      intros [H | H]; try exact H; exfalso; eauto with exclusive.
  - rewrite (parse_line_tconv_filters p filters line Hl). unfold agrees. cbn.
    repeat split; auto;
      intros [H | H]; try exact H; exfalso; eauto with exclusive.
  - rewrite (Hl p). unfold agrees.
    repeat split; auto;
      intros [H | H]; try exact H; exfalso; eauto with exclusive.
Qed.

Lemma fold_parse_line fc dims filters (lines : list string) :
  written fc dims filters lines ->
  forall p,
    agrees fc dims filters p ->
    let p' := fold_left parse_line lines p in
    agrees fc dims filters p' /\
    (fc_filters p = Some fc \/ Exists (describes "fc_filters" fc) lines ->
     fc_filters p' = Some fc) /\
    (tconv_dims p = Some dims \/ Exists (describes "tconv_dims" dims) lines ->
     tconv_dims p' = Some dims) /\
    (tconv_filters p = Some filters \/
     Exists (describes "tconv_filters" filters) lines ->
     tconv_filters p' = Some filters).
Proof.
  induction 1 as [| line lines Hline _ IH]; intros p Hp.
  - cbn. split; [exact Hp |].
    repeat split; intros [H | H]; try exact H; inversion H.
  - cbn [fold_left].
    destruct (parse_line_step fc dims filters p line) as [Ha [H1 [H2 H3]]];
      [constructor; [exact Hline | constructor] | exact Hp |].
    destruct (IH (parse_line p line) Ha) as [Ha' [H1' [H2' H3']]].
    split; [exact Ha' |].
    repeat split.
    + intros [H | H]; apply H1'; [left; apply H1; left; exact H |].
      inversion H; subst; [left; apply H1; right; assumption | right; assumption].
    + intros [H | H]; apply H2'; [left; apply H2; left; exact H |].
      inversion H; subst; [left; apply H2; right; assumption | right; assumption].
    + intros [H | H]; apply H3'; [left; apply H3; left; exact H |].
      inversion H; subst; [left; apply H3; right; assumption | right; assumption].
Qed.

(** *** The file *)

Lemma readlines_from_line (body : string) :
  forall cur rest,
    no_newline body = true ->
    readlines_from cur (body ++ newline ++ rest) =
    (cur ++ body ++ newline) :: readlines_from EmptyString rest.
Proof.
  induction body as [| a body IH]; intros cur rest H.
  - reflexivity.
  - cbn [no_newline] in H. apply andb_true_iff in H. destruct H as [Ha Hb].
    apply negb_true_iff in Ha.
    cbn [append readlines_from]. rewrite Ha, IH by exact Hb.
    rewrite append_assoc. reflexivity.
Qed.

Lemma no_newline_app a b :
  no_newline (a ++ b) = no_newline a && no_newline b.
Proof.
  induction a as [| x a IH]; [reflexivity |].
  cbn [append no_newline]. rewrite IH, andb_assoc. reflexivity.
Qed.

Lemma digit_not_newline a : is_digit a = true -> Ascii.eqb a "010"%char = false.
Proof.
  destruct a as [[] [] [] [] [] [] [] []]; vm_compute; congruence.
Qed.

Lemma all_digits_no_newline s : all_digits s = true -> no_newline s = true.
Proof.
  induction s as [| a s IH]; [reflexivity |].
  cbn [all_digits no_newline]. intros H. apply andb_true_iff in H.
  destruct H as [Ha Hs]. rewrite (digit_not_newline a Ha), IH by exact Hs.
  reflexivity.
Qed.

Lemma no_newline_join (l : list Z) :
  Forall (fun v => (0 <= v)%Z) l -> no_newline (join ", " (map str l)) = true.
Proof.
  induction l as [| x [| y r] IH]; intros H; [reflexivity | |].
  - inversion H; subst. cbn. apply all_digits_no_newline, str_all_digits.
    assumption.
  - inversion H; subst.
    change (join ", " (map str (x :: y :: r)))
      with (str x ++ ", " ++ join ", " (map str (y :: r))).
    rewrite !no_newline_app, IH by assumption.
    rewrite (all_digits_no_newline (str x)) by (apply str_all_digits; assumption).
    reflexivity.
Qed.

Lemma no_newline_tuple_repr (l : list Z) :
  Forall (fun v => (0 <= v)%Z) l -> no_newline (tuple_repr l) = true.
Proof.
  intros H. destruct l as [| x [| y r]].
  - reflexivity.
  - inversion H; subst. unfold tuple_repr.
    rewrite !no_newline_app.
    rewrite (all_digits_no_newline (str x)) by (apply str_all_digits; assumption).
    reflexivity.
  - unfold tuple_repr. rewrite !no_newline_app, no_newline_join by exact H.
    reflexivity.
Qed.

(** The lines of a written file are its three attribute lines. *)
Lemma readlines_write_meta fc dims filters :
  Forall (fun v => (0 <= v)%Z) fc ->
  Forall (fun v => (0 <= v)%Z) dims ->
  Forall (fun v => (0 <= v)%Z) filters ->
  readlines (write_meta fc dims filters) =
  [meta_line "fc_filters" fc; meta_line "tconv_dims" dims;
   meta_line "tconv_filters" filters].
Proof.
  intros H1 H2 H3. unfold readlines, write_meta.
  assert (Hline : forall name l rest,
             no_newline name = true ->
             Forall (fun v => (0 <= v)%Z) l ->
             readlines_from EmptyString (meta_line name l ++ rest) =
             meta_line name l :: readlines_from EmptyString rest).
  { intros name l rest Hn Hl.
    replace (meta_line name l ++ rest)
      with ((name ++ " " ++ tuple_repr l) ++ newline ++ rest)
      by (unfold meta_line; rewrite !append_assoc; reflexivity).
    rewrite readlines_from_line.
    - unfold meta_line. cbn [append]. rewrite !append_assoc. reflexivity.
    - rewrite !no_newline_app, Hn, no_newline_tuple_repr by exact Hl.
      reflexivity. }
  rewrite Hline by (try reflexivity; assumption).
  rewrite Hline by (try reflexivity; assumption).
  rewrite <- (append_nil_r (meta_line "tconv_filters" filters)) at 1.
  rewrite Hline by (try reflexivity; assumption).
  reflexivity.
Qed.

Lemma meta_line_describes name l :
  Forall (fun v => (0 <= v)%Z) l -> describes name l (meta_line name l).
Proof.
  intros H. destruct (meta_items_spec l H) as [Hs [Hw Hf]].
  exists (fst (meta_items l)), (snd (meta_items l)).
  split; [apply meta_line_attribute_line | auto].
Qed.

(** C7. The integers written for the three attributes are read back.
    For lines: when every line of the file is a line of one of the three
    attributes (the name, a separator, then non-negative integers each
    followed by one or more of the characters comma, parenthesis and white
    space) carrying the integers written for it, or a line the parser skips,
    and each attribute has a line, the parser returns the three written
    tuples, in whatever order the lines come. For the file: parsing the file
    written with Python's tuple format returns the tuples that were written. *)
Theorem metadata_round_trip fc dims filters :
  Forall (fun v => 0 <= v)%Z fc ->
  Forall (fun v => 0 <= v)%Z dims ->
  Forall (fun v => 0 <= v)%Z filters ->
  (forall lines,
     written fc dims filters lines ->
     Exists (describes "fc_filters" fc) lines ->
     Exists (describes "tconv_dims" dims) lines ->
     Exists (describes "tconv_filters" filters) lines ->
     get_parameters_of_lines lines = Ok (fc, dims, filters)) /\
  (forall (fs : text_files) model_dir,
     fs (meta_path model_dir) = Some (write_meta fc dims filters) ->
     get_parameters fs model_dir = Ok (fc, dims, filters)).
Proof.
  intros H1 H2 H3.
  assert (Hlines : forall lines,
             written fc dims filters lines ->
             Exists (describes "fc_filters" fc) lines ->
             Exists (describes "tconv_dims" dims) lines ->
             Exists (describes "tconv_filters" filters) lines ->
             get_parameters_of_lines lines = Ok (fc, dims, filters)).
  { intros lines Hw E1 E2 E3. unfold get_parameters_of_lines.
    destruct (fold_parse_line fc dims filters lines Hw (mkParameters None None None))
      as [_ [F1 [F2 F3]]].
    - unfold agrees. cbn. auto.
    - rewrite F1, F2, F3 by (right; assumption). reflexivity. }
  split; [exact Hlines |].
  intros fs model_dir Hfs. unfold get_parameters. rewrite Hfs.
  rewrite readlines_write_meta by assumption.
  pose proof (meta_line_describes "fc_filters" fc H1) as D1.
  pose proof (meta_line_describes "tconv_dims" dims H2) as D2.
  pose proof (meta_line_describes "tconv_filters" filters H3) as D3.
  apply Hlines.
  - constructor; [left; exact D1 |].
    constructor; [right; left; exact D2 |].
    constructor; [right; right; left; exact D3 | constructor].
  - apply Exists_cons_hd. exact D1.
  - apply Exists_cons_tl, Exists_cons_hd. exact D2.
  - apply Exists_cons_tl, Exists_cons_tl, Exists_cons_hd. exact D3.
Qed.

Lemma metadata_round_trip_witness :
  (forall lines,
     written [4; 8; 16]%Z [32; 64]%Z [8; 4]%Z lines ->
     Exists (describes "fc_filters" [4; 8; 16]%Z) lines ->
     Exists (describes "tconv_dims" [32; 64]%Z) lines ->
     Exists (describes "tconv_filters" [8; 4]%Z) lines ->
     get_parameters_of_lines lines = Ok ([4; 8; 16], [32; 64], [8; 4])%Z) /\
  (forall (fs : text_files) model_dir,
     fs (meta_path model_dir) = Some example_meta ->
     get_parameters fs model_dir = Ok ([4; 8; 16], [32; 64], [8; 4])%Z).
Proof.
  apply (metadata_round_trip [4; 8; 16]%Z [32; 64]%Z [8; 4]%Z);
    repeat constructor; lia.
Defined.

(** The parser on the text of the specification, evaluated. *)
Example get_parameters_example :
  get_parameters
    (fun path => if String.eqb path "models/m/model_meta.txt"
                 then Some example_meta else None)
    "models/m" = Ok ([4; 8; 16], [32; 64], [8; 4])%Z.
Proof. reflexivity. Qed.

End ParserFacts.

(** ** The evaluation driver *)

Module EvaluateFacts.

Import NetworkHelper Evaluate.
Local Open Scope result_scope.

Lemma filter_all {A : Type} (f : A -> bool) (l : list A) :
  Forall (fun x => f x = true) l -> filter f l = l.
Proof.
  induction 1 as [| x l Hx _ IH]; [reflexivity |].
  cbn [filter]. rewrite Hx, IH. reflexivity.
Qed.

Lemma regular_rows (t : table) :
  regular t = true ->
  (2 <= length t)%nat /\ (2 <= width t)%nat /\
  Forall (fun r => length r = width t) t.
Proof.
  unfold regular. rewrite !andb_true_iff, !Nat.leb_le.
  intros [[Hl Hw] Hs]. repeat split; [exact Hl | exact Hw |].
  destruct t as [| r rest]; [constructor |].
  cbn [same_width width] in *. constructor; [reflexivity |].
  rewrite forallb_forall in Hs. apply Forall_forall. intros r' Hr'.
  apply Nat.eqb_eq, Hs, Hr'.
Qed.

(** A regular file is read as the two-dimensional array of its lines. *)
Lemma loadtxt_regular (fs : numeric_files) file t :
  fs file = Some t -> regular t = true -> loadtxt fs file = Ok (Arr2 t).
Proof.
  intros Hfs Hreg. unfold loadtxt. rewrite Hfs.
  destruct (regular_rows t Hreg) as [Hl [Hw Hrows]].
  rewrite filter_all.
  - unfold regular in Hreg. rewrite !andb_true_iff in Hreg.
    destruct Hreg as [_ Hs]. rewrite Hs. cbn [negb].
    destruct t as [| r1 [| r2 rest]]; cbn [length] in Hl; try lia.
    destruct r1 as [| a [| b r1]]; cbn [width length] in Hw; try lia.
    reflexivity.
  - eapply Forall_impl; [| exact Hrows]. intros r Hr. cbn beta in *.
    rewrite Hr. destruct (width t) as [| [| w]]; [lia | lia | reflexivity].
Qed.

Lemma stretch_id {A : Type} (n : nat) (l : list A) :
  (2 <= length l)%nat -> stretch n l = l.
Proof. destruct l as [| x [| y l]]; cbn; intros; try lia; reflexivity. Qed.

Lemma map_stretch_regular (t : table) (c : nat) :
  regular t = true -> stretch (length t) (map (stretch c) t) = t.
Proof.
  intros Hreg. destruct (regular_rows t Hreg) as [Hl [Hw Hrows]].
  assert (E : map (stretch c) t = t).
  { rewrite <- (map_id t) at 2. apply map_ext_Forall.
    eapply Forall_impl; [| exact Hrows]. intros r Hr. cbn beta in *.
    apply stretch_id. lia. }
  rewrite E. apply stretch_id. exact Hl.
Qed.

Lemma elementwise2_regular (f : Q -> Q -> Q) (p t : table) :
  regular p = true -> regular t = true ->
  length p = length t -> width p = width t ->
  elementwise2 f (Arr2 p) (Arr2 t) = Ok (Arr2 (map2 (map2 f) p t)).
Proof.
  intros Hp Ht Hl Hw. unfold elementwise2. cbn [as_matrix ndim].
  unfold broadcast_dim. rewrite <- Hl, <- Hw, !Nat.eqb_refl. cbn [bind].
  rewrite (map_stretch_regular p) by exact Hp.
  rewrite Hl, (map_stretch_regular t) by exact Ht.
  reflexivity.
Qed.

Lemma map_map2 {A B C D : Type} (g : C -> D) (f : A -> B -> C) l l' :
  map g (map2 f l l') = map2 (fun x y => g (f x y)) l l'.
Proof.
  unfold map2. rewrite map_map. apply map_ext. intros [x y]. reflexivity.
Qed.

Lemma map_map_map2 (g : Q -> Q) (f : Q -> Q -> Q) (p t : table) :
  map (map g) (map2 (map2 f) p t) = map2 (map2 (fun x y => g (f x y))) p t.
Proof.
  unfold map2 at 1 3. rewrite map_map. apply map_ext. intros [r r'].
  apply map_map2.
Qed.

(** What the function computes on two regular files of the same shape. *)
Lemma compare_truth_pred_regular (fs : numeric_files) pred_file truth_file p t :
  fs pred_file = Some p -> fs truth_file = Some t ->
  regular p = true -> regular t = true ->
  length p = length t -> width p = width t ->
  compare_truth_pred fs pred_file truth_file =
  Ok (map np_mean (map2 (map2 (fun x y => Qabs (x - y))) p t),
      map np_mean (map2 (map2 (fun x y => ((x - y) * (x - y))%Q)) p t)).
Proof.
  intros Hfp Hft Hp Ht Hl Hw. unfold compare_truth_pred.
  rewrite (loadtxt_regular fs pred_file p Hfp Hp).
  rewrite (loadtxt_regular fs truth_file t Hft Ht). cbn [bind].
  rewrite (elementwise2_regular Qminus p t Hp Ht Hl Hw). cbn [bind].
  cbn [elementwise mean_axis1 bind].
  rewrite !map_map_map2. reflexivity.
Qed.

(** *** Rows whose entries are all equal *)






(** *** Files of row width 1 *)









(** Files that differ by 2 in every entry, in either direction: both
    vectors evaluated (6/3 is 2, 12/3 is 4). *)
Example compare_truth_pred_differ_by_2 :
  let fs := fun file : string =>
              if String.eqb file "pred.csv" then Some [[3; 1; 4]; [4; 7; 1]]%Q
              else if String.eqb file "truth.csv" then Some [[1; 3; 2]; [2; 5; 3]]%Q
              else None in
  compare_truth_pred fs "pred.csv" "truth.csv" =
    Ok ([Num (6 # 3); Num (6 # 3)], [Num (12 # 3); Num (12 # 3)]).
Proof. vm_compute. reflexivity. Qed.

(** *** The driver *)

(** C9. The branch of [main] that reuses the files on disk is never taken:
    whatever the force-run flag and whatever exists on disk, the test
    selects the evaluation, and a run of [main] that returns has printed the
    evaluation message and compared the files [ntwk.evaluate] returned. *)
Theorem skip_branch_unreachable :
  (forall f exists_ save_file, select_branch f exists_ save_file = Evaluating) /\
  (forall here data ntwk get_data CnnNetwork ntwk_evaluate f texts nums exists_ out,
     main here data ntwk get_data CnnNetwork ntwk_evaluate f texts nums exists_
       = Ok out ->
     taken out = Evaluating /\
     printed out = ["Evaluating the model ..."%string] /\
     exists d net nums',
       ntwk_evaluate net d nums
         (path_join (path_join here "models") (model_name f)) (model_name f) =
       Ok (nums', (pred_file out, truth_file out))).
Proof.
  split; [reflexivity |].
  intros here data ntwk get_data CnnNetwork ntwk_evaluate f texts nums exists_ out.
  unfold main.
  destruct (get_parameters texts _) as [[[fc dims] filters] | e];
    [| discriminate].
  cbn [bind].
  destruct (if (length dims =? 0)%nat then last_item fc else last_item dims)
    as [output_size | e]; [| discriminate].
  cbn [bind].
  destruct (get_data f output_size) as [d | e]; [| discriminate].
  cbn [bind].
  destruct (CnnNetwork d f fc dims filters) as [net | e]; [| discriminate].
  cbn [bind]. change (select_branch f exists_ _) with Evaluating. cbn iota.
  destruct (ntwk_evaluate net d nums _ _) as [[nums' [pf tf]] | e] eqn:Hev;
    [| discriminate].
  cbn [bind].
  destruct (compare_truth_pred nums' pf tf) as [[maes mses] | e]; [| discriminate].
  cbn [bind]. intros [= <-]. cbn.
  split; [reflexivity |]. split; [reflexivity |].
  exists d, net, nums'. exact Hev.
Qed.

Lemma skip_branch_unreachable_witness :
  let f := mkFlags 2 [0; 1]%Z [2; 3]%Z 5 0 20 5 25 250 1500 (1 # 1000) 10000
             (96 # 100) false "m" "train.txt" "test.txt" in
  let texts := fun path : string =>
                 if String.eqb path "./models/m/model_meta.txt"
                 then Some example_meta else None in
  let written := fun file : string =>
                   if String.eqb file "./data/test_pred_m.csv"
                   then Some [[3; 1]; [4; 7]]%Q
                   else if String.eqb file "./data/test_truth.csv"
                   then Some [[1; 3]; [2; 5]]%Q
                   else None in
  let evaluate := fun (_ _ : unit) (_ : numeric_files) (_ _ : string) =>
                    Ok (written, ("./data/test_pred_m.csv"%string,
                                  "./data/test_truth.csv"%string)) in
  exists out,
    main "." unit unit (fun _ _ => Ok tt) (fun _ _ _ _ _ => Ok tt) evaluate f texts
      (fun _ => None) (fun _ => true) = Ok out /\
    taken out = Evaluating /\
    printed out = ["Evaluating the model ..."%string].
Proof.
  intros f texts written evaluate.
  eexists. split; [reflexivity |].
  destruct skip_branch_unreachable as [_ H].
  destruct (H "."%string unit unit (fun _ _ => Ok tt) (fun _ _ _ _ _ => Ok tt)
              evaluate f texts (fun _ => None) (fun _ => true) _ eq_refl)
    as [H1 [H2 _]].
  split; [exact H1 | exact H2].
Defined.

End EvaluateFacts.

(** ** More on the models of utils.py *)

Module UtilsVariantsFacts.

Import Utils UtilsFacts UtilsVariants.
Local Open Scope result_scope.

(** *** The first stage that cannot be built *)

Lemma tconv_stage_zero batch_size cnt st up_size up_filter :
  feature_dim st = 0 ->
  tconv_stage batch_size cnt st up_size up_filter = Raise ZeroDivisionError.
Proof. intros H. unfold tconv_stage. rewrite H. reflexivity. Qed.

Lemma tconv_stage_indivisible batch_size cnt st up_size up_filter :
  feature_dim st <> 0 ->
  up_size mod feature_dim st <> 0 ->
  tconv_stage batch_size cnt st up_size up_filter = Raise AssertionError.
Proof.
  intros H0 H1. unfold tconv_stage.
  destruct (Z.eqb_spec (feature_dim st) 0) as [E | _]; [contradiction |].
  destruct (Z.eqb_spec (up_size mod feature_dim st) 0) as [E | _];
    [contradiction | reflexivity].
Qed.

Lemma tconv_loop_first_bad batch_size (good : list (Z * Z)) :
  forall cnt st b up_size up_filter rest,
    up st = [b; feature_dim st; last_filter st] ->
    chain (feature_dim st) (map fst good) ->
    let fd := last (map fst good) (feature_dim st) in
    fd = 0 \/ up_size mod fd <> 0 ->
    tconv_loop batch_size cnt st (good ++ (up_size, up_filter) :: rest) =
    Raise (if fd =? 0 then ZeroDivisionError else AssertionError).
Proof.
  induction good as [| [d f] good IH];
    intros cnt st b up_size up_filter rest Hup Hch fd Hbad.
  - cbn [app tconv_loop]. subst fd. cbn [map last] in *.
    destruct (Z.eqb_spec (feature_dim st) 0) as [E | E].
    + rewrite tconv_stage_zero by exact E. reflexivity.
    + rewrite tconv_stage_indivisible; [reflexivity | exact E |].
      destruct Hbad; [contradiction | assumption].
  - cbn [map chain fst] in Hch. destruct Hch as [Hfd [Hmod Hch]].
    cbn [app tconv_loop].
    rewrite (tconv_stage_ok batch_size cnt st d f b Hup Hfd Hmod). cbn [bind].
    set (st1 := mkLoop _ _ _ _).
    assert (Hfd1 : fd = last (map fst good) (feature_dim st1)).
    { subst fd st1. cbn [map feature_dim fst].
      destruct good as [| p good]; [reflexivity |].
      cbn [map fst].
      change (last (d :: fst p :: map fst good) (feature_dim st))
        with (last (fst p :: map fst good) (feature_dim st)).
      apply last_default. discriminate. }
    rewrite Hfd1 in *.
    apply (IH (S cnt) st1 batch_size); [reflexivity | exact Hch | exact Hbad].
Qed.

Lemma combine_split_at {A B : Type} (l : list A) (l' : list B) (i : nat) (a : A) (b : B) :
  (i < Nat.min (length l) (length l'))%nat ->
  combine l l' =
  (combine (firstn i l) (firstn i l') ++
   (nth i l a, nth i l' b) :: combine (skipn (S i) l) (skipn (S i) l'))%list.
Proof.
  revert l' i. induction l as [| x l IH]; intros [| y l'] i Hi; cbn in Hi; try lia.
  destruct i as [| i]; [reflexivity |].
  cbn [firstn combine app nth skipn]. f_equal. apply IH. lia.
Qed.

(** X1. A spec whose stage [i] is the first that is not evenly divisible is
    refused: [my_model_fn] raises [AssertionError] there, or
    [ZeroDivisionError] when the width that stage receives is zero, and no
    network is returned. *)
Theorem first_bad_stage_raises batch input_size batch_size fc dims filters i :
  fc <> [] ->
  (i < Nat.min (length dims) (length filters))%nat ->
  (forall j, (j < i)%nat ->
     feature_dim_at fc dims j <> 0 /\
     (feature_dim_at fc dims j | nth j dims 0)) ->
  feature_dim_at fc dims i = 0 \/
  ~ (feature_dim_at fc dims i | nth i dims 0) ->
  my_model_fn [batch; input_size] batch_size fc dims filters =
  Raise (if feature_dim_at fc dims i =? 0
         then ZeroDivisionError else AssertionError).
Proof.
  intros Hfc Hi Hgood Hbad. unfold my_model_fn.
  destruct (fc_loop_rank2 fc 0%nat batch input_size []) as [ls [E _]].
  rewrite E. cbn [bind app].
  rewrite (last_default fc input_size 0 Hfc).
  unfold expand_dims. simpl Nat.leb. cbn [bind firstn skipn app].
  rewrite (last_item_last fc 0 Hfc). cbn [bind].
  rewrite (combine_split_at dims filters i 0 0 Hi).
  set (st0 := mkLoop _ _ _ _).
  assert (Hmap : map fst (combine (firstn i dims) (firstn i filters)) = firstn i dims).
  { rewrite map_fst_combine, length_firstn, firstn_firstn.
    f_equal. lia. }
  assert (Hfd : last (firstn i dims) (last fc 0) = feature_dim_at fc dims i).
  { destruct i as [| i]; [reflexivity |]. cbn [feature_dim_at].
    assert (Hlen : length (firstn (S i) dims) = S i)
      by (rewrite length_firstn; lia).
    destruct (exists_last (l := firstn (S i) dims)) as [l' [x Hx]].
    { intros H0. rewrite H0 in Hlen. discriminate. }
    rewrite Hx, last_last.
    rewrite <- (nth_firstn dims (S i) i 0) by lia.
    rewrite Hx. rewrite Hx, length_app in Hlen. cbn in Hlen.
    rewrite app_nth2 by lia. replace (i - length l')%nat with 0%nat by lia.
    reflexivity. }
  rewrite (tconv_loop_first_bad batch_size _ 0%nat st0 batch).
  - subst st0. cbn [feature_dim]. rewrite Hmap, Hfd. reflexivity.
  - reflexivity.
  - subst st0. cbn [feature_dim]. rewrite Hmap. apply chain_nth.
    intros j Hj. rewrite length_firstn in Hj.
    destruct (Hgood j) as [Hnz Hdiv]; [lia |].
    assert (Hf : match j with
                 | O => last fc 0
                 | S k => nth k (firstn i dims) 0
                 end = feature_dim_at fc dims j).
    { destruct j; [reflexivity |]. cbn. apply nth_firstn. lia. }
    rewrite Hf, nth_firstn by lia.
    split; [exact Hnz | apply Z.mod_divide; assumption].
  - subst st0. cbn [feature_dim]. rewrite Hmap, Hfd.
    destruct Hbad as [H0 | Hnd]; [left; exact H0 |].
    destruct (Z.eq_dec (feature_dim_at fc dims i) 0) as [E0 | E0];
      [left; exact E0 | right].
    intros Hm. apply Hnd. apply Z.mod_divide; assumption.
Qed.

Lemma first_bad_stage_raises_witness :
  my_model_fn [20; 2] 20 [100] [200; 300] [4; 2] = Raise AssertionError.
Proof.
  apply (first_bad_stage_raises 20 2 20 [100] [200; 300] [4; 2] 1).
  - discriminate.
  - cbn. lia.
  - intros j Hj. assert (j = 0%nat) by lia. subst j. cbn.
    split; [lia | exists 2; reflexivity].
  - right. cbn. intros [q Hq]. lia.
Defined.

(** *** The three models *)

Lemma op_strides_app (g g' : list op) :
  op_strides (g ++ g') = (op_strides g ++ op_strides g')%list.
Proof.
  induction g as [| o g IH]; [reflexivity |].
  destruct o as [l | | |]; try destruct l; cbn; rewrite IH; reflexivity.
Qed.

Lemma fc_linear_loop_rank2 (fc_filters : list Z) :
  forall cnt b n ls,
    exists ls',
      fc_linear_loop cnt [b; n] ls fc_filters =
        Ok ([b; last fc_filters n], (ls ++ ls')%list) /\
      op_strides ls' = [].
Proof.
  induction fc_filters as [| u rest IH]; intros cnt b n ls.
  - exists []. rewrite app_nil_r. split; reflexivity.
  - destruct (IH (S cnt) b u (ls ++ [Linear cnt u; LeakyRelu])%list) as [ls' [E S']].
    exists (Linear cnt u :: LeakyRelu :: ls'). split; [| exact S'].
    cbn [fc_linear_loop linear bind]. rewrite E, <- app_assoc. cbn [app].
    destruct rest as [| z rest]; [reflexivity |].
    rewrite (last_default (z :: rest) u n) by discriminate. reflexivity.
Qed.

(** The transposed convolution of the models returns the shape it is
    asked for. *)
Lemma conv1d_transpose_shape value filter a b c stride s :
  Utils.conv1d_transpose value filter [a; b; c] stride = Ok s -> s = [a; b; c].
Proof.
  unfold Utils.conv1d_transpose. cbn [length Nat.eqb negb].
  destruct (nth_error value 2) as [ch |]; [| discriminate].
  destruct (nth_error filter 2) as [fin |]; [| discriminate].
  destruct (negb (ch =? fin)); [discriminate |].
  destruct (nth_error filter 1) as [fout |]; [| discriminate].
  cbn [nth_error]. destruct (negb (fout =? c)); [discriminate |].
  cbn. intros [= <-]. reflexivity.
Qed.

Lemma up_stage_simulates refine batch_size cnt st vst up_size up_filter :
  same_state st vst ->
  related same_state
    (tconv_stage batch_size cnt st up_size up_filter)
    (up_stage refine batch_size cnt vst up_size up_filter).
Proof.
  intros [Hup [Hfd [Hlf Hs]]]. unfold tconv_stage, up_stage.
  rewrite <- Hup, <- Hfd, <- Hlf.
  destruct (feature_dim st =? 0); [reflexivity |].
  destruct (negb (up_size mod feature_dim st =? 0)); [reflexivity |].
  destruct (Utils.conv1d_transpose (up st) [3; up_filter; last_filter st]
              [batch_size; up_size; up_filter] (up_size / feature_dim st))
    as [u | e] eqn:E; [| reflexivity].
  apply conv1d_transpose_shape in E. subst u. cbn [bind].
  destruct refine; cbn; unfold same_state; cbn;
    rewrite ?strides_app, ?op_strides_app, Hs; cbn;
    rewrite ?app_nil_r; auto.
Qed.

Lemma up_loop_simulates refine batch_size (stages : list (Z * Z)) :
  forall cnt st vst,
    same_state st vst ->
    related same_state
      (tconv_loop batch_size cnt st stages)
      (up_loop refine batch_size cnt vst stages).
Proof.
  induction stages as [| [d f] rest IH]; intros cnt st vst H; [exact H |].
  cbn [tconv_loop up_loop].
  pose proof (up_stage_simulates refine batch_size cnt st vst d f H) as Hs.
  destruct (tconv_stage batch_size cnt st d f) as [st1 | e];
    destruct (up_stage refine batch_size cnt vst d f) as [vst1 | e'];
    cbn in Hs; try contradiction.
  - cbn [bind]. apply IH. exact Hs.
  - subst e'. reflexivity.
Qed.

Lemma model_fn_linear_agrees refine batch input_size batch_size fc dims filters :
  summary_of_model
    (model_fn_linear refine [batch; input_size] batch_size fc dims filters) =
  summary_of_network (my_model_fn [batch; input_size] batch_size fc dims filters).
Proof.
  unfold model_fn_linear, my_model_fn.
  destruct (fc_loop_rank2 fc 0%nat batch input_size []) as [ls [E Hls]].
  destruct (fc_linear_loop_rank2 fc 0%nat batch input_size []) as [vls [E' Hvls]].
  rewrite E, E'. cbn [bind app].
  destruct (expand_dims [batch; last fc input_size] 2) as [up0 | e]; [| reflexivity].
  cbn [bind].
  destruct (last_item fc) as [fd0 | e]; [| reflexivity].
  cbn [bind].
  pose proof (up_loop_simulates refine batch_size (combine dims filters) 0%nat
                (mkLoop up0 fd0 1 (ls ++ [ExpandDims 2]))
                (mkState up0 fd0 1 (vls ++ [Op (ExpandDims 2)])%list)) as Hsim.
  destruct (tconv_loop _ _ _ _) as [st | e];
    destruct (up_loop _ _ _ _ _) as [vst | e'];
    cbn in Hsim.
  - destruct Hsim as [Hup [_ [_ Hs]]].
    + unfold same_state. cbn. rewrite strides_app, op_strides_app, Hls, Hvls.
      auto.
    + cbn [bind]. rewrite <- Hup.
      destruct (conv1d (up st) 1 1) as [up1 | e]; [| reflexivity]. cbn [bind].
      destruct (squeeze up1 2) as [out | e]; [| reflexivity]. cbn.
      rewrite strides_app, op_strides_app, Hs. reflexivity.
  - exfalso. apply Hsim. unfold same_state. cbn.
    rewrite strides_app, op_strides_app, Hls, Hvls. auto.
  - exfalso. apply Hsim. unfold same_state. cbn.
    rewrite strides_app, op_strides_app, Hls, Hvls. auto.
  - rewrite Hsim; [reflexivity |]. unfold same_state. cbn.
    rewrite strides_app, op_strides_app, Hls, Hvls. auto.
Qed.

(** X2. On an input of shape [[batch, input_size]] the three model
    functions build networks of the same output shape with the same strides,
    and where one of them raises the other two raise the same exception. *)
Theorem model_variants_agree batch input_size batch_size fc dims filters :
  summary_of_model
    (my_model_fn_linear [batch; input_size] batch_size fc dims filters) =
  summary_of_network (my_model_fn [batch; input_size] batch_size fc dims filters) /\
  summary_of_model
    (my_model_fn_linear_conv1d [batch; input_size] batch_size fc dims filters) =
  summary_of_network (my_model_fn [batch; input_size] batch_size fc dims filters).
Proof. split; apply model_fn_linear_agrees. Qed.

(** *** The filter counts *)

Lemma tconv_stage_same_widths batch_size cnt st st' up_size f f' :
  same_widths st st' ->
  related same_widths
    (tconv_stage batch_size cnt st up_size f)
    (tconv_stage batch_size cnt st' up_size f').
Proof.
  intros [Hfd [Hs [b [w [Hup Hup']]]]]. unfold tconv_stage. rewrite <- Hfd.
  destruct (feature_dim st =? 0); [reflexivity |].
  destruct (negb (up_size mod feature_dim st =? 0)); [reflexivity |].
  unfold Utils.conv1d_transpose. rewrite Hup, Hup'. cbn.
  rewrite !Z.eqb_refl. cbn. unfold same_widths. cbn.
  rewrite !strides_app, Hs. cbn. repeat split.
  exists batch_size, up_size. split; reflexivity.
Qed.

Lemma tconv_loop_same_widths batch_size (dims : list Z) :
  forall filters filters' cnt st st',
    length filters = length filters' ->
    same_widths st st' ->
    related same_widths
      (tconv_loop batch_size cnt st (combine dims filters))
      (tconv_loop batch_size cnt st' (combine dims filters')).
Proof.
  induction dims as [| d dims IH]; intros filters filters' cnt st st' Hlen H;
    [exact H |].
  destruct filters as [| f filters]; destruct filters' as [| f' filters'];
    try discriminate; [exact H |].
  cbn [combine tconv_loop].
  pose proof (tconv_stage_same_widths batch_size cnt st st' d f f' H) as Hs.
  destruct (tconv_stage batch_size cnt st d f) as [st1 | e];
    destruct (tconv_stage batch_size cnt st' d f') as [st1' | e'];
    cbn in Hs; try contradiction.
  - cbn [bind]. apply IH; [cbn in Hlen; lia | exact Hs].
  - subst e'. reflexivity.
Qed.

(** X3. The filter counts decide the kernels only: two lists of filter
    counts of the same length give, on an input of shape
    [[batch, input_size]], the same output shape and the same strides, or
    the same exception. *)
Theorem filter_counts_do_not_change_the_shape
    batch input_size batch_size fc dims filters filters' :
  length filters = length filters' ->
  summary_of_network (my_model_fn [batch; input_size] batch_size fc dims filters) =
  summary_of_network (my_model_fn [batch; input_size] batch_size fc dims filters').
Proof.
  intros Hlen. unfold my_model_fn.
  destruct (fc_loop_rank2 fc 0%nat batch input_size []) as [ls [E Hls]].
  rewrite E. cbn [bind app].
  unfold expand_dims. simpl Nat.leb. cbn [bind firstn skipn app].
  destruct (last_item fc) as [fd0 | e]; [| reflexivity].
  cbn [bind].
  set (st0 := mkLoop _ _ _ _).
  assert (H0 : same_widths st0 st0).
  { unfold same_widths. repeat split.
    exists batch, (last fc input_size). split; reflexivity. }
  pose proof (tconv_loop_same_widths batch_size dims filters filters' 0%nat
                st0 st0 Hlen H0) as Hsim.
  destruct (tconv_loop batch_size 0 st0 (combine dims filters)) as [st | e];
    destruct (tconv_loop batch_size 0 st0 (combine dims filters')) as [st' | e'];
    cbn in Hsim; try contradiction.
  - destruct Hsim as [_ [Hs [b [w [Hup Hup']]]]].
    cbn [bind]. rewrite Hup, Hup'. cbn.
    rewrite !strides_app, Hs. reflexivity.
  - subst e'. reflexivity.
Qed.

Lemma filter_counts_do_not_change_the_shape_witness :
  summary_of_network (my_model_fn [20; 2] 20 [100; 4] [8; 16] [2; 3]) =
  summary_of_network (my_model_fn [20; 2] 20 [100; 4] [8; 16] [64; 1]).
Proof.
  apply (filter_counts_do_not_change_the_shape 20 2 20 [100; 4] [8; 16]
           [2; 3] [64; 1]).
  reflexivity.
Defined.

End UtilsVariantsFacts.

(** ** More on the hooks *)

Module HookTraceFacts.

Import NetworkHelper HookFacts HookTraces.
Local Open Scope hook_scope.

(** *** Counting what a hook adds to the trace *)

Lemma adds_none_bind p {A B : Type} (m : M A) (k : A -> M B) :
  adds_none p m -> (forall a, adds_none p (k a)) -> adds_none p (mbind m k).
Proof.
  intros Hm Hk w. unfold mbind. destruct (Hm w) as [tl [E F]].
  destruct (m w) as [w' [a | e]]; cbn [fst] in *.
  - destruct (Hk a w') as [tl' [E' F']]. exists (tl ++ tl').
    rewrite E', E, app_assoc, filter_app, F, F'. auto.
  - exists tl. auto.
Qed.

Lemma adds_none_same p {A : Type} (m : M A) :
  (forall w, trace (fst (m w)) = trace w) -> adds_none p m.
Proof. intros H w. exists []. rewrite app_nil_r. auto. Qed.

Lemma adds_none_emit p e : p e = false -> adds_none p (emit e).
Proof. intros H w. exists [e]. cbn. rewrite H. auto. Qed.

Lemma adds_none_next_batch p : adds_none p next_batch.
Proof.
  apply adds_none_same. intros w. unfold next_batch.
  destruct (iterator w) as [| [b | e] rest]; reflexivity.
Qed.

Lemma adds_none_value_log p name val step wr :
  p (ScalarSummary name val step) = false ->
  adds_none p (HookValueSummary_log name val step wr).
Proof.
  intros H. destruct wr as [x |]; [apply adds_none_emit; exact H |].
  apply adds_none_same. reflexivity.
Qed.

Lemma adds_none_curve_log p name truth pred step wr curve_num :
  (forall curves, p (CurveSummary name curves step) = false) ->
  adds_none p (HookCurvePlotSummary_log name truth pred step wr curve_num).
Proof.
  intros H. unfold HookCurvePlotSummary_log.
  destruct truth as [t |]; [| apply adds_none_same; reflexivity].
  apply adds_none_bind; [apply adds_none_same; reflexivity | intros fig_idx].
  apply adds_none_bind; [apply adds_none_same; reflexivity | intros curves].
  destruct wr as [x |]; [apply adds_none_emit, H | apply adds_none_same; reflexivity].
Qed.

Lemma adds_none_drain p (it : list fetch) :
  p SessRunBatch = false ->
  forall acc, adds_none p (drain it acc).
Proof.
  intros H. induction it as [| [b | e] rest IH]; intros acc w.
  - exists [SessRunBatch]. cbn. rewrite H. auto.
  - cbn [drain].
    destruct (IH (mkDrained (loss_val acc ++ [b_loss b])
                    (Some (b_truth b)) (Some (b_pred b)))
                (mkWorld rest (rng w) (trace w ++ [SessRunBatch])))
      as [tl [E F]].
    exists (SessRunBatch :: tl). rewrite E. cbn [trace].
    rewrite <- app_assoc. cbn. rewrite H. auto.
  - destruct e; exists [SessRunBatch]; cbn; rewrite H; auto.
Qed.

Lemma loss_reads_app a b : loss_reads (a ++ b) = (loss_reads a + loss_reads b)%nat.
Proof. unfold loss_reads. rewrite filter_app, length_app. reflexivity. Qed.

Lemma rewinds_app a b : rewinds (a ++ b) = (rewinds a + rewinds b)%nat.
Proof. unfold rewinds. rewrite filter_app, length_app. reflexivity. Qed.

(** A firing tick of the train hook reads the loss once. *)
Lemma train_action_one_read h wr w :
  loss_reads (trace (fst (TrainValueHook_action h wr w))) =
  S (loss_reads (trace w)).
Proof.
  unfold TrainValueHook_action, mbind at 1. cbn [emit].
  set (w1 := mkWorld _ _ _).
  match goal with |- context [fst (?m w1)] =>
    assert (Hm : adds_none is_loss_read m) end.
  { apply adds_none_bind; [apply adds_none_next_batch | intros b].
    apply adds_none_bind.
    - destruct (verb h); [apply adds_none_emit | apply adds_none_same]; reflexivity.
    - intros _. destruct (t_write_summary h);
        [apply adds_none_value_log | apply adds_none_same]; reflexivity. }
  destruct (Hm w1) as [tl [E F]]. rewrite E. subst w1. cbn [trace].
  rewrite !loss_reads_app. unfold loss_reads at 3. rewrite F. cbn. lia.
Qed.

(** A firing tick of the validation hook rewinds the stream once. *)
Lemma valid_action_one_rewind h wr w :
  rewinds (trace (fst (ValidationHook_action h wr w))) = S (rewinds (trace w)).
Proof.
  unfold ValidationHook_action, mbind at 1. cbn [run_init].
  set (w1 := mkWorld _ _ _).
  match goal with |- context [fst (?m w1)] =>
    assert (Hm : adds_none is_rewind m) end.
  { apply adds_none_bind.
    - intros w'. apply adds_none_drain. reflexivity.
    - intros d. apply adds_none_bind; [apply adds_none_emit; reflexivity |].
      intros _. unfold ValidationHook_summaries.
      destruct (v_write_summary h); [| apply adds_none_same; reflexivity].
      apply adds_none_bind; [apply adds_none_value_log; reflexivity | intros _].
      apply adds_none_curve_log. reflexivity. }
  destruct (Hm w1) as [tl [E F]]. rewrite E. subst w1. cbn [trace].
  rewrite !rewinds_app. unfold rewinds at 3. rewrite F. cbn. lia.
Qed.

(** The multiples of [v] between [s+1] and [s+1]. *)
Lemma div_succ (v s : Z) :
  0 < v ->
  (s + 1) / v - s / v = if (s + 1) mod v =? 0 then 1 else 0.
Proof.
  intros Hv.
  pose proof (Z.div_mod (s + 1) v ltac:(lia)) as H1.
  pose proof (Z.mod_pos_bound (s + 1) v Hv) as H2.
  destruct (Z.eqb_spec ((s + 1) mod v) 0) as [E | E].
  - assert (s / v = (s + 1) / v - 1); [| lia].
    symmetry. apply (Z.div_unique s v _ (v - 1)); [lia | nia].
  - assert (s / v = (s + 1) / v); [| lia].
    symmetry. apply (Z.div_unique s v _ ((s + 1) mod v - 1)); [lia | nia].
Qed.

Lemma train_run_reads h wr w :
  0 < verb_step h ->
  Z.of_nat (loss_reads (trace (fst (snd (TrainValueHook_run h wr w))))) =
  Z.of_nat (loss_reads (trace w)) +
  ((t_step h + 1) / verb_step h - t_step h / verb_step h).
Proof.
  intros Hv. rewrite div_succ by exact Hv.
  cbn [TrainValueHook_run snd verb_step t_step].
  destruct (Z.eqb_spec (verb_step h) 0) as [E | _]; [lia |].
  destruct ((t_step h + 1) mod verb_step h =? 0).
  - rewrite train_action_one_read. lia.
  - cbn. lia.
Qed.

Lemma invoke_train_reads wr (n : nat) :
  forall h w,
    0 < verb_step h ->
    Z.of_nat (loss_reads (trace (snd (invoke_train n h wr w)))) =
    Z.of_nat (loss_reads (trace w)) +
    ((t_step h + Z.of_nat n) / verb_step h - t_step h / verb_step h).
Proof.
  induction n as [| n IH]; intros h w Hv.
  - cbn [invoke_train snd]. rewrite Z.add_0_r. lia.
  - cbn [invoke_train]. rewrite IH by exact Hv.
    rewrite train_run_reads by exact Hv.
    cbn [TrainValueHook_run fst t_step verb_step].
    replace (t_step h + 1 + Z.of_nat n) with (t_step h + Z.of_nat (S n)) by lia.
    lia.
Qed.

(** X5. In [n] invocations, counted from its creation, the train-progress
    hook reads the loss the number of multiples of [verb_step] among the
    ticks [0 .. n-1], that is [n / verb_step] rounded up, whatever the
    session answers. *)
Theorem train_hook_reads_count v ckpt_dir name ws vb h0 wr w (n : nat) :
  TrainValueHook_init v ckpt_dir name ws vb = Ok h0 ->
  0 < v ->
  Z.of_nat (loss_reads (trace (snd (invoke_train n h0 wr w)))) =
  Z.of_nat (loss_reads (trace w)) + (Z.of_nat n + v - 1) / v.
Proof.
  intros Hinit Hv.
  assert (H0 : t_step h0 = -1 /\ verb_step h0 = v).
  { unfold TrainValueHook_init in Hinit.
    destruct (ws && _); [discriminate |].
    injection Hinit as <-. split; reflexivity. }
  destruct H0 as [Hs Hvs].
  rewrite invoke_train_reads by lia. rewrite Hs, Hvs.
  replace (-1 / v) with (-1)
    by (apply (Z.div_unique (-1) v (-1) (v - 1)); lia).
  replace (Z.of_nat n + v - 1) with (-1 + Z.of_nat n + 1 * v) by lia.
  rewrite Z.div_add by lia. lia.
Qed.

Lemma train_hook_reads_count_witness :
  let h0 := mkTrainValueHook (-1) 5 false "mean_squared_error" true in
  let w := mkWorld [] (fun n => seq 0 n) [] in
  Z.of_nat (loss_reads (trace (snd (invoke_train 12 h0 None w)))) = 0 + (12 + 5 - 1) / 5.
Proof.
  intros h0 w.
  apply (train_hook_reads_count 5 None "mean_squared_error" false true h0 None w 12).
  - reflexivity.
  - lia.
Defined.

Lemma valid_run_rewinds h wr w :
  0 < valid_step h ->
  0 <= v_step h ->
  Z.of_nat (rewinds (trace (fst (snd (ValidationHook_run h wr w))))) =
  Z.of_nat (rewinds (trace w)) +
  ((v_step h + 1) / valid_step h - v_step h / valid_step h).
Proof.
  intros Hv Hs. rewrite div_succ by exact Hv.
  cbn [ValidationHook_run snd valid_step v_step].
  destruct (Z.eqb_spec (valid_step h) 0) as [E | _]; [lia |].
  destruct (Z.eqb_spec (v_step h + 1) 0) as [E | _]; [lia |].
  rewrite andb_true_r.
  destruct ((v_step h + 1) mod valid_step h =? 0).
  - rewrite valid_action_one_rewind. lia.
  - cbn. lia.
Qed.

Lemma invoke_valid_rewinds wr (n : nat) :
  forall h w,
    0 < valid_step h ->
    0 <= v_step h ->
    Z.of_nat (rewinds (trace (snd (invoke_valid n h wr w)))) =
    Z.of_nat (rewinds (trace w)) +
    ((v_step h + Z.of_nat n) / valid_step h - v_step h / valid_step h).
Proof.
  induction n as [| n IH]; intros h w Hv Hs.
  - cbn [invoke_valid snd]. rewrite Z.add_0_r. lia.
  - cbn [invoke_valid].
    rewrite IH by (cbn [ValidationHook_run fst valid_step v_step]; lia).
    rewrite valid_run_rewinds by assumption.
    cbn [ValidationHook_run fst v_step valid_step].
    replace (v_step h + 1 + Z.of_nat n) with (v_step h + Z.of_nat (S n)) by lia.
    lia.
Qed.

(** X6. In [n + 1] invocations, counted from its creation, the validation
    hook runs the number of multiples of its period among the ticks
    [1 .. n], that is [n / valid_step] rounded down, validation passes,
    whatever the session answers and whether the passes end in an exception
    or not. *)
Theorem validation_hook_pass_count v op ckpt_dir ws cn h0 wr w (n : nat) :
  ValidationHook_init v op ckpt_dir ws cn = Ok h0 ->
  0 < v ->
  Z.of_nat (rewinds (trace (snd (invoke_valid (S n) h0 wr w)))) =
  Z.of_nat (rewinds (trace w)) + Z.of_nat n / v.
Proof.
  intros Hinit Hv.
  assert (H0 : v_step h0 = -1 /\ valid_step h0 = v).
  { unfold ValidationHook_init in Hinit.
    destruct (ws && _); [discriminate |].
    injection Hinit as <-. split; reflexivity. }
  destruct H0 as [Hs Hvs].
  cbn [invoke_valid].
  assert (Hfirst : snd (ValidationHook_run h0 wr w) = (w, Ok tt)).
  { cbn [ValidationHook_run snd valid_step v_step]. rewrite Hs, Hvs.
    destruct (Z.eqb_spec v 0) as [E | _]; [lia |].
    change (-1 + 1) with 0. rewrite Z.mod_0_l by lia. reflexivity. }
  rewrite Hfirst. cbn [fst].
  rewrite invoke_valid_rewinds;
    cbn [ValidationHook_run fst valid_step v_step]; rewrite ?Hs, ?Hvs; try lia.
  replace (-1 + 1) with 0 by lia. rewrite Z.div_0_l by lia. cbn. lia.
Qed.

Lemma validation_hook_pass_count_witness :
  let b := Batch (mkBatch (1 # 2) [] []) in
  let h0 := mkValidationHook (-1) 10 [b] false 6 in
  let w := mkWorld [] (fun n => seq 0 n) [] in
  Z.of_nat (rewinds (trace (snd (invoke_valid 36 h0 None w)))) = 0 + 35 / 10.
Proof.
  intros b h0 w.
  apply (validation_hook_pass_count 10 [b] None false 6 h0 None w 35).
  - reflexivity.
  - lia.
Defined.

(** *** A period of zero *)

Lemma invoke_train_zero wr (n : nat) :
  forall h w,
    verb_step h = 0 ->
    invoke_train n h wr w =
    (mkTrainValueHook (t_step h + Z.of_nat n) (verb_step h) (t_write_summary h)
       (value_name h) (verb h), w).
Proof.
  induction n as [| n IH]; intros h w Hv.
  - cbn [invoke_train]. rewrite Z.add_0_r. destruct h; reflexivity.
  - cbn [invoke_train]. cbn [TrainValueHook_run fst snd verb_step].
    rewrite Hv. cbn [Z.eqb raise fst]. rewrite IH by reflexivity.
    cbn [t_step verb_step t_write_summary value_name verb].
    f_equal. f_equal. lia.
Qed.

Lemma invoke_valid_zero wr (n : nat) :
  forall h w,
    valid_step h = 0 ->
    invoke_valid n h wr w =
    (mkValidationHook (v_step h + Z.of_nat n) (valid_step h) (valid_init_op h)
       (v_write_summary h) (curve_num h), w).
Proof.
  induction n as [| n IH]; intros h w Hv.
  - cbn [invoke_valid]. rewrite Z.add_0_r. destruct h; reflexivity.
  - cbn [invoke_valid]. cbn [ValidationHook_run fst snd valid_step].
    rewrite Hv. cbn [Z.eqb raise fst]. rewrite IH by reflexivity.
    cbn [v_step valid_step valid_init_op v_write_summary curve_num].
    f_equal. f_equal. lia.
Qed.

(** X7. A hook whose period is zero raises [ZeroDivisionError] on every
    invocation, tick 0 of the validation hook included; it still counts the
    invocation, and it never touches the session: after [n] invocations the
    step has advanced by [n] and the session is as it was. *)
Theorem zero_period_raises_every_tick :
  (forall h wr w (n : nat),
     verb_step h = 0 ->
     snd (TrainValueHook_run h wr w) = (w, Raise ZeroDivisionError) /\
     t_step (fst (invoke_train n h wr w)) = t_step h + Z.of_nat n /\
     snd (invoke_train n h wr w) = w) /\
  (forall h wr w (n : nat),
     valid_step h = 0 ->
     snd (ValidationHook_run h wr w) = (w, Raise ZeroDivisionError) /\
     v_step (fst (invoke_valid n h wr w)) = v_step h + Z.of_nat n /\
     snd (invoke_valid n h wr w) = w).
Proof.
  split; intros h wr w n Hv.
  - rewrite (invoke_train_zero wr n h w Hv).
    cbn [TrainValueHook_run fst snd verb_step t_step]. rewrite Hv. auto.
  - rewrite (invoke_valid_zero wr n h w Hv).
    cbn [ValidationHook_run fst snd valid_step v_step]. rewrite Hv. auto.
Qed.

Lemma zero_period_raises_every_tick_witness :
  let h := mkValidationHook (-1) 0 [] false 6 in
  let w := mkWorld [] (fun n => seq 0 n) [] in
  snd (ValidationHook_run h None w) = (w, Raise ZeroDivisionError) /\
  v_step (fst (invoke_valid 3 h None w)) = -1 + 3 /\
  snd (invoke_valid 3 h None w) = w.
Proof.
  intros h w. destruct zero_period_raises_every_tick as [_ H].
  apply (H h None w 3%nat). reflexivity.
Defined.

(** *** A read error in a validation pass *)

Lemma drain_iterator_irrelevant it acc i i' r t :
  drain it acc (mkWorld i r t) = drain it acc (mkWorld i' r t).
Proof. destruct it as [| [b | e] rest]; reflexivity. Qed.

Lemma drain_prefix (bs : list batch) :
  forall acc w tail,
    drain (map Batch bs ++ tail) acc w =
    drain tail
      (mkDrained (loss_val acc ++ map b_loss bs)
         (match final_batch bs with
          | Some b => Some (b_truth b)
          | None => truth acc
          end)
         (match final_batch bs with
          | Some b => Some (b_pred b)
          | None => pred acc
          end))
      (mkWorld tail (rng w) (trace w ++ repeat SessRunBatch (length bs))).
Proof.
  induction bs as [| b bs IH]; intros acc w tail.
  - cbn [map app length repeat final_batch last]. rewrite !app_nil_r.
    destruct acc, w. apply drain_iterator_irrelevant.
  - cbn [map app drain]. rewrite IH. cbn [rng trace loss_val truth pred].
    rewrite final_batch_cons, <- !app_assoc. cbn [app length repeat].
    destruct (final_batch bs); reflexivity.
Qed.

(** X8. When a read of the validation stream fails with an error other than
    the end of the data, after the batches [bs], [run] raises that error:
    the pass prints and logs nothing, and the losses read so far are
    dropped. *)
Theorem validation_read_error_is_raised h wr w bs e rest :
  valid_step h <> 0 ->
  (valid_step h | v_step h + 1) ->
  v_step h + 1 <> 0 ->
  valid_init_op h = map Batch bs ++ Fails e :: rest ->
  e <> OutOfRangeError ->
  snd (ValidationHook_run h wr w) =
  (mkWorld rest (rng w)
     (trace w ++ SessRunInit :: repeat SessRunBatch (S (length bs))),
   Raise e).
Proof.
  intros Hv Hd Hn Hop He.
  rewrite (validation_run_fires h wr w Hv Hd Hn).
  unfold ValidationHook_action, mbind, run_init.
  cbn [ValidationHook_run fst valid_init_op iterator].
  rewrite Hop, drain_prefix. cbn [rng trace drain].
  assert (Htr : forall tr : list event,
             ((tr ++ [SessRunInit]) ++ repeat SessRunBatch (length bs)) ++
               [SessRunBatch] =
             tr ++ SessRunInit :: repeat SessRunBatch (S (length bs))).
  { intros tr. rewrite <- !app_assoc. cbn [app]. f_equal. f_equal.
    rewrite <- repeat_cons. reflexivity. }
  destruct e; try contradiction; rewrite Htr; reflexivity.
Qed.

Lemma validation_read_error_is_raised_witness :
  let b := mkBatch (1 # 2) [] [] in
  let h := mkValidationHook 9 10 [Batch b; Batch b; Fails IOError; Batch b] true 6 in
  let w := mkWorld [] (fun n => seq 0 n) [] in
  snd (ValidationHook_run h (Some FileWriter) w) =
  (mkWorld [Batch b] (rng w)
     [SessRunInit; SessRunBatch; SessRunBatch; SessRunBatch],
   Raise IOError).
Proof.
  intros b h w.
  apply (validation_read_error_is_raised h (Some FileWriter) w [b; b] IOError
           [Batch b]).
  - cbn. lia.
  - exists 1. reflexivity.
  - cbn. lia.
  - reflexivity.
  - discriminate.
Defined.

(** *** Summaries without a writer *)

(** X9. With summaries on and the writer left to its default [None], a
    firing tick raises [AttributeError]: the train hook after it has read
    and printed the loss, the validation hook after it has read the whole
    stream and printed the mean. *)
Theorem summaries_need_a_writer :
  (forall h w b rest,
     verb_step h <> 0 ->
     (verb_step h | t_step h + 1) ->
     t_write_summary h = true ->
     iterator w = Batch b :: rest ->
     snd (TrainValueHook_run h None w) =
     (mkWorld rest (rng w)
        (trace w ++ SessRunLoss ::
           (if verb h then [PrintStep (t_step h + 1) (b_loss b)] else [])),
      Raise AttributeError)) /\
  (forall h w bs,
     valid_step h <> 0 ->
     (valid_step h | v_step h + 1) ->
     v_step h + 1 <> 0 ->
     v_write_summary h = true ->
     valid_init_op h = map Batch bs ->
     snd (ValidationHook_run h None w) =
     (mkWorld [] (rng w)
        (trace w ++ SessRunInit :: repeat SessRunBatch (S (length bs)) ++
           [PrintEval (v_step h + 1) (np_mean (map b_loss bs))]),
      Raise AttributeError)).
Proof.
  split.
  - intros h w b rest Hv Hd Hws Hit.
    cbn [TrainValueHook_run snd verb_step t_step].
    destruct (Z.eqb_spec (verb_step h) 0) as [E | _]; [contradiction |].
    apply (mod_zero_divide _ _ Hv) in Hd. rewrite Hd.
    unfold TrainValueHook_action, mbind, emit, next_batch.
    cbn [iterator rng trace verb t_write_summary t_step value_name].
    rewrite Hit, Hws.
    destruct (verb h); cbn; rewrite <- ?app_assoc; reflexivity.
  - intros h w bs Hv Hd Hn Hws Hop.
    rewrite (validation_run_fires h None w Hv Hd Hn).
    rewrite (validation_action_batches _ None w bs) by exact Hop.
    unfold ValidationHook_summaries.
    cbn [ValidationHook_run fst v_write_summary v_step]. rewrite Hws.
    reflexivity.
Qed.

Lemma summaries_need_a_writer_witness :
  let b := mkBatch (1 # 2) [] [] in
  let h := mkTrainValueHook 4 5 true "mean_squared_error" true in
  let w := mkWorld [Batch b] (fun n => seq 0 n) [] in
  snd (TrainValueHook_run h None w) =
  (mkWorld [] (rng w) [SessRunLoss; PrintStep 5 (1 # 2)], Raise AttributeError).
Proof.
  intros b h w. destruct summaries_need_a_writer as [H _].
  apply (H h w b []).
  - cbn. lia.
  - exists 1. reflexivity.
  - reflexivity.
  - reflexivity.
Defined.

(** *** The curve plot *)

Lemma bind_raises {A B : Type} (r : result A) (k : A -> result B) :
  (forall a, r = Ok a -> exists e, k a = Raise e) ->
  exists e, bind r k = Raise e.
Proof.
  intros H. destruct r as [a | e]; cbn; [apply H; reflexivity | eauto].
Qed.

Lemma plot_curves_too_many truth pred fig_idx (n : nat) :
  forall i,
    (0 < n)%nat ->
    (length fig_idx < i + n \/ 6 < i + n)%nat ->
    exists e, plot_curves truth pred fig_idx i n = Raise e.
Proof.
  induction n as [| n IH]; intros i Hn Hbad; [lia |].
  cbn [plot_curves].
  destruct (Nat.leb_spec 6 i) as [H6 | H6]; [eauto |].
  apply bind_raises. intros k Hk.
  assert (Hi : (i < length fig_idx)%nat).
  { unfold index in Hk. destruct (nth_error fig_idx i) eqn:E; [| discriminate].
    apply nth_error_Some. congruence. }
  apply bind_raises. intros t _. apply bind_raises. intros p _.
  apply bind_raises. intros d _. apply bind_raises. intros rest Hrest.
  destruct n as [| n]; [lia |].
  destruct (IH (S i)) as [e He]; [lia | lia |]. congruence.
Qed.

(** X10. The curve plot needs [curve_num] rows and at most six curves: on
    a batch of fewer rows than [curve_num], or with [curve_num] above 6, it
    raises, and nothing is written. *)
Theorem curve_plot_needs_enough_rows name t pred step wr curve_num w :
  length (rng w (length t)) = length t ->
  Z.of_nat (length t) < curve_num \/ 6 < curve_num ->
  exists e,
    HookCurvePlotSummary_log name (Some t) pred step wr curve_num w =
    (w, Raise e).
Proof.
  intros Hlen Hbad. unfold HookCurvePlotSummary_log, mbind, permutation, lift.
  destruct (plot_curves_too_many t pred (rng w (length t)) (Z.to_nat curve_num) 0)
    as [e He]; [lia | lia |].
  rewrite He. eauto.
Qed.

Lemma curve_plot_needs_enough_rows_witness :
  let t := [[1; 2]; [3; 4]; [5; 6]]%Q in
  let w := mkWorld [] (fun n => seq 0 n) [] in
  exists e,
    HookCurvePlotSummary_log "pred_plot" (Some t) (Some t) 10 (Some FileWriter) 6 w =
    (w, Raise e).
Proof.
  intros t w.
  apply (curve_plot_needs_enough_rows "pred_plot" t (Some t) 10 (Some FileWriter) 6 w).
  - reflexivity.
  - left. cbn. lia.
Defined.

Lemma skipn_nth {A : Type} (l : list A) (i : nat) (d : A) :
  (i < length l)%nat -> skipn i l = nth i l d :: skipn (S i) l.
Proof.
  revert i. induction l as [| x l IH]; intros i Hi; cbn in Hi; [lia |].
  destruct i as [| i]; [reflexivity |]. cbn [skipn nth]. rewrite (IH i) by lia.
  reflexivity.
Qed.

Lemma index_nth {A : Type} (l : list A) (i : nat) (d : A) :
  (i < length l)%nat -> index l i = Ok (nth i l d).
Proof.
  intros Hi. unfold index. rewrite (nth_error_nth' l d Hi). reflexivity.
Qed.

Lemma same_shape_nth truth pred k :
  same_shape truth pred ->
  length (nth k truth []) = length (nth k pred []).
Proof.
  intros H. revert k. induction H as [| t p truth pred Htp _ IH]; intros k.
  - destruct k; reflexivity.
  - destruct k as [| k]; [exact Htp | apply IH].
Qed.

Lemma same_shape_length truth pred :
  same_shape truth pred -> length truth = length pred.
Proof. induction 1; cbn; congruence. Qed.

Lemma row_sub_same_length a b :
  length a = length b ->
  row_sub a b = Ok (map (fun '(x, y) => (x - y)%Q) (combine a b)).
Proof. intros H. unfold row_sub. rewrite H, Nat.eqb_refl. reflexivity. Qed.

Lemma plot_curves_rows truth pred fig_idx (n : nat) :
  same_shape truth pred ->
  Forall (fun k => (k < length truth)%nat) fig_idx ->
  forall i,
    (i + n <= 6)%nat ->
    (i + n <= length fig_idx)%nat ->
    plot_curves truth (Some pred) fig_idx i n =
    Ok (map (curve truth pred) (firstn n (skipn i fig_idx))).
Proof.
  intros Hshape Hidx. induction n as [| n IH]; intros i H6 Hlen; [reflexivity |].
  cbn [plot_curves].
  destruct (Nat.leb_spec 6 i) as [H | _]; [lia |].
  rewrite (index_nth fig_idx i 0%nat) by lia. cbn [bind].
  set (k := nth i fig_idx 0%nat).
  assert (Hk : (k < length truth)%nat).
  { rewrite Forall_forall in Hidx. apply Hidx. apply nth_In. lia. }
  rewrite (index_nth truth k []) by exact Hk. cbn [bind].
  rewrite (index_nth pred k [])
    by (rewrite <- (same_shape_length truth pred Hshape); exact Hk).
  cbn [bind].
  rewrite row_sub_same_length by (apply same_shape_nth; exact Hshape).
  cbn [bind]. rewrite IH by lia. cbn [bind].
  rewrite (skipn_nth fig_idx i 0%nat) by lia. cbn [firstn map].
  fold k. unfold curve at 2. rewrite map_map.
  do 3 f_equal. f_equal. apply map_ext. intros [x y]. reflexivity.
Qed.

(** X11. On a batch of [curve_num] rows or more, with [curve_num] at most
    6, a writer, and truth and prediction arrays of the same shape, the
    curve plot writes one summary of exactly [curve_num] curves: for each
    of the first [curve_num] indices of the random permutation, the row of
    the truth, the row of the prediction at the same index, and the sum of
    the squares of their differences. *)
Theorem curve_plot_draws_curve_num_rows name t p step curve_num w :
  fair (rng w) ->
  same_shape t p ->
  curve_num <= 6 ->
  curve_num <= Z.of_nat (length t) ->
  HookCurvePlotSummary_log name (Some t) (Some p) step (Some FileWriter)
    curve_num w =
  (mkWorld (iterator w) (rng w)
     (trace w ++
        [CurveSummary name
           (map (curve t p) (firstn (Z.to_nat curve_num) (rng w (length t))))
           step]),
   Ok tt).
Proof.
  intros Hfair Hshape H6 Hrows. destruct (Hfair (length t)) as [Hlen Hidx].
  unfold HookCurvePlotSummary_log, mbind, permutation, lift.
  rewrite (plot_curves_rows t p (rng w (length t)) (Z.to_nat curve_num) Hshape Hidx)
    by lia.
  reflexivity.
Qed.

Lemma curve_plot_draws_curve_num_rows_witness :
  let t := [[1; 2]; [3; 4]; [5; 6]]%Q in
  let p := [[1; 1]; [3; 3]; [5; 5]]%Q in
  let w := mkWorld [] (fun n => rev (seq 0 n)) [] in
  HookCurvePlotSummary_log "pred_plot" (Some t) (Some p) 10 (Some FileWriter) 2 w =
  (mkWorld [] (rng w)
     [CurveSummary "pred_plot" (map (curve t p) [2%nat; 1%nat]) 10],
   Ok tt).
Proof.
  intros t p w.
  apply (curve_plot_draws_curve_num_rows "pred_plot" t p 10 2 w).
  - intros n. cbn [rng w]. split.
    + rewrite length_rev, length_seq. reflexivity.
    + apply Forall_forall. intros k Hk. apply in_rev, in_seq in Hk. lia.
  - repeat constructor.
  - lia.
  - cbn. lia.
Defined.

End HookTraceFacts.

(** ** More on the metadata parser *)

Module ParserLinesFacts.

Import NetworkHelper ParserFacts ParserLines.
Local Open Scope string_scope.

(** *** Which lines bind which attribute *)

Lemma substring_substring (s : string) :
  forall n m, (n <= m)%nat -> substring 0 n (substring 0 m s) = substring 0 n s.
Proof.
  induction s as [| a s IH]; intros n m H.
  - destruct n, m; reflexivity.
  - destruct n as [| n]; [destruct m; reflexivity |].
    destruct m as [| m]; [lia |].
    cbn [substring]. rewrite IH by lia. reflexivity.
Qed.

Lemma parse_line_cases p line :
  parse_line p line =
  mkParameters
    (if starts_with "fc_filters" line then Some (parse_ints line) else fc_filters p)
    (if starts_with "tconv_dims" line then Some (parse_ints line) else tconv_dims p)
    (if starts_with "tconv_filters" line then Some (parse_ints line)
     else tconv_filters p).
Proof.
  unfold parse_line, starts_with. cbn [String.length].
  destruct (String.eqb_spec (substring 0 10 line) "fc_filters") as [E1 | E1].
  - rewrite E1. cbn.
    destruct (String.eqb_spec (substring 0 13 line) "tconv_filters") as [E3 | E3];
      [| reflexivity].
    rewrite <- (substring_substring line 10 13), E3 in E1 by lia. discriminate.
  - destruct (String.eqb_spec (substring 0 10 line) "tconv_dims") as [E2 | E2].
    + destruct (String.eqb_spec (substring 0 13 line) "tconv_filters") as [E3 | E3];
        [| reflexivity].
      rewrite <- (substring_substring line 10 13), E3 in E2 by lia. discriminate.
    + destruct (String.eqb (substring 0 13 line) "tconv_filters");
        destruct p; reflexivity.
Qed.

Lemma last_with_app p lines line :
  last_with p (lines ++ [line]) =
  if p line then Some line else last_with p lines.
Proof. unfold last_with. rewrite fold_left_app. reflexivity. Qed.

(** The loop, in closed form: each attribute is bound to the integers of the
    last line that starts with its name. *)
Lemma fold_parse_line_last (lines : list string) :
  fold_left parse_line lines (mkParameters None None None) =
  mkParameters
    (option_map parse_ints (last_with (starts_with "fc_filters") lines))
    (option_map parse_ints (last_with (starts_with "tconv_dims") lines))
    (option_map parse_ints (last_with (starts_with "tconv_filters") lines)).
Proof.
  induction lines as [| line lines IH] using rev_ind; [reflexivity |].
  rewrite fold_left_app. cbn [fold_left]. rewrite IH, parse_line_cases.
  rewrite !last_with_app.
  cbn [fc_filters tconv_dims tconv_filters].
  destruct (starts_with "fc_filters" line), (starts_with "tconv_dims" line),
    (starts_with "tconv_filters" line); reflexivity.
Qed.

Lemma last_with_exists p (lines : list string) :
  (exists line, last_with p lines = Some line) <-> existsb p lines = true.
Proof.
  induction lines as [| line lines IH] using rev_ind.
  - cbn. split; [intros [l H]; discriminate | discriminate].
  - rewrite last_with_app, existsb_app. cbn [existsb]. rewrite orb_false_r.
    destruct (p line).
    + rewrite orb_true_r. split; eauto.
    + rewrite orb_false_r. exact IH.
Qed.

Lemma existsb_last_with p (lines : list string) :
  existsb p lines =
  match last_with p lines with
  | Some _ => true
  | None => false
  end.
Proof.
  pose proof (last_with_exists p lines) as [H1 H2].
  destruct (last_with p lines) as [l |].
  - apply H1. eauto.
  - destruct (existsb p lines); [| reflexivity].
    destruct (H2 eq_refl) as [l Hl]. discriminate.
Qed.

(** X12. On lines of ASCII text, [get_parameters] returns if and only if
    each of the three attributes has a line that starts with its name; when
    one has none, the [return] meets a variable that was never bound and
    raises [UnboundLocalError]. *)
Theorem get_parameters_needs_the_three_attributes (lines : list string) :
  ascii_lines lines = true ->
  (all_present lines = true <-> exists r, get_parameters_of_lines lines = Ok r) /\
  (all_present lines = false ->
   get_parameters_of_lines lines = Raise UnboundLocalError).
Proof.
  intros _.
  unfold get_parameters_of_lines, all_present.
  rewrite fold_parse_line_last, !existsb_last_with.
  cbn [fc_filters tconv_dims tconv_filters].
  destruct (last_with (starts_with "fc_filters") lines) as [l1 |];
    destruct (last_with (starts_with "tconv_dims") lines) as [l2 |];
    destruct (last_with (starts_with "tconv_filters") lines) as [l3 |];
    cbn [option_map andb];
    (split; [split; [intros H; try discriminate H; eauto
                    | intros [r Hr]; try discriminate Hr; reflexivity]
            | intros H; try discriminate H; reflexivity]).
Qed.

(** X13. On lines of ASCII text, when an attribute has several lines the
    last one wins: the tuple returned for each attribute holds the integers
    of the last line that starts with its name. *)
Theorem get_parameters_last_line_wins (lines : list string) l1 l2 l3 :
  ascii_lines lines = true ->
  last_with (starts_with "fc_filters") lines = Some l1 ->
  last_with (starts_with "tconv_dims") lines = Some l2 ->
  last_with (starts_with "tconv_filters") lines = Some l3 ->
  get_parameters_of_lines lines = Ok (parse_ints l1, parse_ints l2, parse_ints l3).
Proof.
  intros _ H1 H2 H3. unfold get_parameters_of_lines.
  rewrite fold_parse_line_last, H1, H2, H3. reflexivity.
Qed.

Lemma get_parameters_last_line_wins_witness :
  get_parameters_of_lines
    ["fc_filters (1, 2)"; "tconv_dims (8)"; "tconv_filters (3)"; "fc_filters (4,)"] =
  Ok (parse_ints "fc_filters (4,)", parse_ints "tconv_dims (8)",
      parse_ints "tconv_filters (3)").
Proof.
  apply get_parameters_last_line_wins; reflexivity.
Defined.

Lemma get_parameters_needs_the_three_attributes_witness :
  get_parameters_of_lines ["fc_filters (4, 8)"; "tconv_dims (16, 32)"] =
  Raise UnboundLocalError.
Proof.
  destruct (get_parameters_needs_the_three_attributes
              ["fc_filters (4, 8)"; "tconv_dims (16, 32)"] eq_refl) as [_ H].
  apply H. reflexivity.
Defined.

(** *** The integers of a line *)

Lemma digit_value a :
  is_digit a = true -> (0 <= Z.of_nat (nat_of_ascii a) - 48)%Z.
Proof.
  unfold is_digit. rewrite andb_true_iff, !Nat.leb_le. lia.
Qed.

Lemma int_from_nonneg (s : string) :
  forall acc, (0 <= acc)%Z -> all_digits s = true -> (0 <= int_from acc s)%Z.
Proof.
  induction s as [| a s IH]; intros acc Hacc H; [exact Hacc |].
  cbn [all_digits] in H. apply andb_true_iff in H. destruct H as [Ha Hs].
  cbn [int_from]. apply IH; [| exact Hs].
  pose proof (digit_value a Ha). lia.
Qed.

(** X14. Whatever the line, the integers read from it are never negative:
    only the tokens made of digits are kept. *)
Theorem parse_ints_never_negative (line : string) :
  Forall (fun v => (0 <= v)%Z) (parse_ints line).
Proof.
  unfold parse_ints. apply Forall_forall. intros v Hv.
  apply in_map_iff in Hv. destruct Hv as [tok [<- Htok]].
  apply filter_In in Htok. destruct Htok as [_ Hd].
  unfold isdigit in Hd. apply andb_true_iff in Hd. destruct Hd as [_ Hd].
  apply int_from_nonneg; [lia | exact Hd].
Qed.

Lemma str_negative (p : positive) :
  str (Z.neg p) = String "-"%char (NilEmpty.string_of_uint (Pos.to_uint p)).
Proof. reflexivity. Qed.

Lemma str_no_blank (v : Z) : no_blank (str v) = true.
Proof.
  destruct v as [| p | p].
  - reflexivity.
  - apply all_digits_no_blank, str_all_digits. lia.
  - rewrite str_negative. cbn [no_blank].
    rewrite (all_digits_no_blank _ (all_digits_uint (Pos.to_uint p))).
    reflexivity.
Qed.

Lemma str_not_empty (v : Z) : str v <> EmptyString.
Proof.
  destruct v as [| p | p]; [discriminate | apply str_nonempty; lia |].
  rewrite str_negative. discriminate.
Qed.

Lemma str_isdigit_iff (v : Z) : isdigit (str v) = (0 <=? v)%Z.
Proof.
  destruct v as [| p | p].
  - reflexivity.
  - rewrite str_isdigit by lia. reflexivity.
  - rewrite str_negative. reflexivity.
Qed.

Lemma split_render_separated (items : list (Z * string)) :
  separated items ->
  split_from EmptyString (replace_str (render items)) =
  map (fun it => str (fst it)) items.
Proof.
  induction 1 as [| [v sep] items Hsep _ IH]; [reflexivity |].
  cbn [render map fst]. cbn [snd] in Hsep.
  rewrite split_from_token by apply str_no_blank.
  cbn [append].
  rewrite split_from_separator; [| exact Hsep | apply str_not_empty].
  rewrite IH. reflexivity.
Qed.

Lemma keep_digits (vs : list Z) :
  map int (filter isdigit (map str vs)) = filter (fun v => (0 <=? v)%Z) vs.
Proof.
  induction vs as [| v vs IH]; [reflexivity |].
  cbn [map filter]. rewrite str_isdigit_iff.
  destruct (Z.leb_spec 0 v) as [Hv | Hv]; [| exact IH].
  cbn [map]. rewrite int_str by exact Hv. rewrite IH. reflexivity.
Qed.

(** X15. A negative integer written on an attribute line is dropped
    without an error: the line gives the non-negative integers written on
    it, in order, and nothing else. *)
Theorem parse_ints_drops_negative_integers name sep0 items :
  no_blank name = true ->
  name <> EmptyString ->
  isdigit name = false ->
  separator sep0 = true ->
  separated items ->
  parse_ints (attribute_line name sep0 items) =
  filter (fun v => (0 <=? v)%Z) (map fst items).
Proof.
  intros Hname Hne Hnd Hsep Hitems. unfold parse_ints, split, attribute_line.
  rewrite split_from_token by exact Hname. cbn [append].
  rewrite split_from_separator by assumption.
  rewrite split_render_separated by exact Hitems.
  cbn [filter]. rewrite Hnd.
  rewrite <- (map_map fst str). apply keep_digits.
Qed.

Lemma parse_ints_drops_negative_integers_witness :
  parse_ints (attribute_line "fc_filters" " ("
                [(4, ", "); (-8, ", "); (16, ")")]%Z) = [4; 16]%Z.
Proof.
  apply (parse_ints_drops_negative_integers "fc_filters" " ("
           [(4, ", "); (-8, ", "); (16, ")")]%Z).
  - reflexivity.
  - discriminate.
  - reflexivity.
  - reflexivity.
  - repeat constructor.
Defined.

(** *** [replace_str] *)

Lemma sep_char_space : sep_char " "%char = false.
Proof. reflexivity. Qed.

(** X16. [replace_str] keeps the length of the line, leaves no comma and no
    parenthesis in it, and changes nothing when applied again. *)
Theorem replace_str_removes_separators (s : string) :
  String.length (replace_str s) = String.length s /\
  has_char sep_char (replace_str s) = false /\
  replace_str (replace_str s) = replace_str s.
Proof.
  induction s as [| a s [IH1 [IH2 IH3]]]; [repeat split |].
  rewrite replace_str_cons.
  destruct (sep_char a) eqn:Ha.
  - cbn [String.length has_char]. rewrite replace_str_cons, sep_char_space.
    rewrite IH1, IH2, IH3. repeat split.
  - cbn [String.length has_char]. rewrite replace_str_cons, Ha.
    rewrite IH1, IH2, IH3. repeat split.
Qed.

End ParserLinesFacts.

(** ** More on [compare_truth_pred] *)

Module EvaluateRelationsFacts.

Import NetworkHelper Evaluate EvaluateFacts.
Local Open Scope result_scope.

(** *** Sums *)

Lemma fold_Qplus_acc (l : list Q) :
  forall a, (fold_left Qplus l a == a + fold_left Qplus l 0)%Q.
Proof.
  induction l as [| x l IH]; intros a; cbn [fold_left]; [ring |].
  rewrite (IH (a + x)%Q), (IH (0 + x)%Q). ring.
Qed.

Lemma Qsum_cons (x : Q) (l : list Q) : (Qsum (x :: l) == x + Qsum l)%Q.
Proof. unfold Qsum. cbn [fold_left]. rewrite fold_Qplus_acc. ring. Qed.

Lemma Qsum_ext (l l' : list Q) : Forall2 Qeq l l' -> (Qsum l == Qsum l')%Q.
Proof.
  induction 1 as [| x y l l' Hxy _ IH]; [reflexivity |].
  rewrite !Qsum_cons, Hxy, IH. reflexivity.
Qed.

(** *** Rows *)

Lemma rows_of_regular (p t : table) :
  regular p = true -> regular t = true -> width p = width t ->
  Forall (fun rr => length (fst rr) = length (snd rr) /\
                    (1 <= length (fst rr))%nat) (combine p t).
Proof.
  intros Hp Ht Hw.
  destruct (regular_rows p Hp) as [_ [Hwp Hrp]].
  destruct (regular_rows t Ht) as [_ [_ Hrt]].
  rewrite Forall_forall in Hrp, Hrt. apply Forall_forall.
  intros [r r'] Hin. cbn [fst snd].
  pose proof (Hrp r (in_combine_l _ _ _ _ Hin)) as H1.
  pose proof (Hrt r' (in_combine_r _ _ _ _ Hin)) as H2.
  cbn beta in *. lia.
Qed.

Lemma map2_length {A B C : Type} (f : A -> B -> C) (l : list A) (l' : list B) :
  length l = length l' -> length (map2 f l l') = length l.
Proof.
  intros H. unfold map2. rewrite length_map, length_combine. lia.
Qed.

Lemma np_mean_value (l : list Q) :
  (1 <= length l)%nat ->
  np_mean l = Num (Qsum l / inject_Z (Z.of_nat (length l))).
Proof. destruct l; cbn [length]; [lia | reflexivity]. Qed.

(** *** Swapping the two files *)

Lemma np_mean_ext (l l' : list Q) :
  Forall2 Qeq l l' -> (1 <= length l)%nat -> feq (np_mean l) (np_mean l').
Proof.
  intros H Hne. pose proof (Forall2_length H) as Hlen.
  rewrite (np_mean_value l), (np_mean_value l') by lia.
  cbn [feq]. rewrite (Qsum_ext l l' H), Hlen. reflexivity.
Qed.

Lemma map2_swap {A B : Type} (f g : A -> A -> B) (R : B -> B -> Prop)
    (l l' : list A) :
  (forall x y, R (f x y) (g y x)) ->
  Forall2 R (map2 f l l') (map2 g l' l).
Proof.
  intros H. revert l'. induction l as [| x l IH]; intros [| y l'];
    try constructor; [apply H | apply IH].
Qed.

Lemma rows_swap (f : Q -> Q -> Q) (p t : table) :
  (forall x y, f x y == f y x)%Q ->
  Forall (fun rr => length (fst rr) = length (snd rr) /\
                    (1 <= length (fst rr))%nat) (combine p t) ->
  Forall2 feq (map np_mean (map2 (map2 f) p t))
              (map np_mean (map2 (map2 f) t p)).
Proof.
  intros Hf. revert t. induction p as [| r p IH]; intros [| r' t] H;
    try constructor.
  - inversion H as [| ? ? [Hlen Hne] Hrest]; subst. cbn [fst snd] in *.
    apply np_mean_ext.
    + apply map2_swap. exact Hf.
    + rewrite map2_length by exact Hlen. exact Hne.
  - inversion H; subst. apply IH. assumption.
Qed.

(** X18. On two regular files of the same shape the two errors do not
    depend on which file is the prediction: swapping the two arguments
    gives the same vectors. *)
Theorem compare_truth_pred_symmetric (fs : numeric_files) pred_file truth_file p t :
  fs pred_file = Some p ->
  fs truth_file = Some t ->
  regular p = true ->
  regular t = true ->
  length p = length t ->
  width p = width t ->
  exists maes mses maes' mses',
    compare_truth_pred fs pred_file truth_file = Ok (maes, mses) /\
    compare_truth_pred fs truth_file pred_file = Ok (maes', mses') /\
    Forall2 feq maes maes' /\
    Forall2 feq mses mses'.
Proof.
  intros Hfp Hft Hp Ht Hl Hw. do 4 eexists.
  split; [exact (compare_truth_pred_regular fs _ _ p t Hfp Hft Hp Ht Hl Hw) |].
  split; [exact (compare_truth_pred_regular fs _ _ t p Hft Hfp Ht Hp
                   (eq_sym Hl) (eq_sym Hw)) |].
  pose proof (rows_of_regular p t Hp Ht Hw) as Hrows.
  split; apply rows_swap; try exact Hrows.
  - intros x y. rewrite <- Qabs_opp. apply Qabs_wd. ring.
  - intros x y. ring.
Qed.

Lemma compare_truth_pred_symmetric_witness :
  let fs := fun file : string =>
              if String.eqb file "pred.csv" then Some [[3; 1]; [4; 7]; [5; 2]]%Q
              else if String.eqb file "truth.csv" then Some [[1; 2]; [2; 5]; [3; 4]]%Q
              else None in
  exists maes mses maes' mses',
    compare_truth_pred fs "pred.csv" "truth.csv" = Ok (maes, mses) /\
    compare_truth_pred fs "truth.csv" "pred.csv" = Ok (maes', mses') /\
    Forall2 feq maes maes' /\
    Forall2 feq mses mses'.
Proof.
  intros fs.
  apply (compare_truth_pred_symmetric fs "pred.csv" "truth.csv"
           [[3; 1]; [4; 7]; [5; 2]]%Q [[1; 2]; [2; 5]; [3; 4]]%Q);
    reflexivity.
Defined.

(** *** Rows that agree *)

(** *** Lines that agree *)





(** *** Files of different shapes *)

(** X20. Two regular files that differ in the number of lines, or in the
    number of values on a line, cannot be compared: the subtraction raises
    [ValueError]. *)
Theorem different_shapes_raise (fs : numeric_files) pred_file truth_file p t :
  fs pred_file = Some p ->
  fs truth_file = Some t ->
  regular p = true ->
  regular t = true ->
  length p <> length t \/ width p <> width t ->
  compare_truth_pred fs pred_file truth_file = Raise ValueError.
Proof.
  intros Hfp Hft Hp Ht Hdiff. unfold compare_truth_pred.
  rewrite (loadtxt_regular fs pred_file p Hfp Hp).
  rewrite (loadtxt_regular fs truth_file t Hft Ht). cbn [bind].
  destruct (regular_rows p Hp) as [Hlp [Hwp _]].
  destruct (regular_rows t Ht) as [Hlt [Hwt _]].
  unfold elementwise2, broadcast_dim. cbn [as_matrix].
  destruct (Nat.eqb_spec (length p) (length t)) as [El | El].
  - cbn [bind].
    destruct (Nat.eqb_spec (width p) (width t)) as [Ew | Ew];
      [destruct Hdiff; contradiction |].
    destruct (Nat.eqb_spec (width p) 1) as [E1 | _]; [lia |].
    destruct (Nat.eqb_spec (width t) 1) as [E1 | _]; [lia |].
    reflexivity.
  - destruct (Nat.eqb_spec (length p) 1) as [E1 | _]; [lia |].
    destruct (Nat.eqb_spec (length t) 1) as [E1 | _]; [lia |].
    reflexivity.
Qed.

Lemma different_shapes_raise_witness :
  let fs := fun file : string =>
              if String.eqb file "pred.csv" then Some [[3; 1]; [4; 7]; [5; 2]]%Q
              else if String.eqb file "truth.csv" then Some [[1; 2]; [2; 5]]%Q
              else None in
  compare_truth_pred fs "pred.csv" "truth.csv" = Raise ValueError.
Proof.
  intros fs.
  apply (different_shapes_raise fs "pred.csv" "truth.csv"
           [[3; 1]; [4; 7]; [5; 2]]%Q [[1; 2]; [2; 5]]%Q);
    try reflexivity.
  left. cbn. lia.
Defined.

(** X21. A truth file of a single line is not refused: [np.loadtxt] reads
    it as a one-dimensional array, and the subtraction compares that line
    with every line of the prediction file. *)
Theorem single_truth_line_is_broadcast (fs : numeric_files) pred_file truth_file p r :
  fs pred_file = Some p ->
  fs truth_file = Some [r] ->
  regular p = true ->
  length r = width p ->
  let t := repeat r (length p) in
  compare_truth_pred fs pred_file truth_file =
  Ok (map np_mean (map2 (map2 (fun x y => Qabs (x - y))) p t),
      map np_mean (map2 (map2 (fun x y => ((x - y) * (x - y))%Q)) p t)).
Proof.
  intros Hfp Hft Hp Hr t.
  destruct (regular_rows p Hp) as [Hlp [Hwp _]].
  unfold compare_truth_pred.
  rewrite (loadtxt_regular fs pred_file p Hfp Hp). cbn [bind].
  assert (Hload : loadtxt fs truth_file = Ok (Arr1 r)).
  { unfold loadtxt. rewrite Hft.
    destruct r as [| a [| b r]]; cbn [length] in Hr; try lia. reflexivity. }
  rewrite Hload. cbn [bind].
  assert (He : forall f, elementwise2 f (Arr2 p) (Arr1 r) =
                         Ok (Arr2 (map2 (map2 f) p t))).
  { intros f. unfold elementwise2, broadcast_dim. cbn [as_matrix ndim length width].
    destruct (Nat.eqb_spec (length p) 1) as [E | _]; [lia |].
    rewrite Hr, !Nat.eqb_refl. cbn [bind Nat.eqb Nat.max of_matrix].
    rewrite (map_stretch_regular p) by exact Hp.
    cbn [map stretch]. rewrite (stretch_id (width p) r) by lia.
    reflexivity. }
  rewrite !He. cbn [bind elementwise mean_axis1].
  rewrite !map_map_map2. reflexivity.
Qed.

Lemma single_truth_line_is_broadcast_witness :
  let fs := fun file : string =>
              if String.eqb file "pred.csv" then Some [[3; 1]; [4; 7]; [5; 2]]%Q
              else if String.eqb file "truth.csv" then Some [[1; 2]]%Q
              else None in
  let p := [[3; 1]; [4; 7]; [5; 2]]%Q in
  let t := repeat [1; 2]%Q 3 in
  compare_truth_pred fs "pred.csv" "truth.csv" =
  Ok (map np_mean (map2 (map2 (fun x y => Qabs (x - y))) p t),
      map np_mean (map2 (map2 (fun x y => ((x - y) * (x - y))%Q)) p t)).
Proof.
  intros fs p t.
  apply (single_truth_line_is_broadcast fs "pred.csv" "truth.csv" p [1; 2]%Q);
    reflexivity.
Defined.

End EvaluateRelationsFacts.
